(** * The login flow of the cluster CLI (pkg/login/flow.go)

    A shallow embedding of [Flow.Start], [Flow.selectProvider],
    [Flow.triggerMethod], [Flow.uid], [Flow.password], [Flow.serviceToken]
    and [Flow.openBrowser].  The flow is a state machine that talks to
    the outside world through collaborators (prompt, HTTP client, browser
    opener, logger, clock, JWT signer).  Every collaborator is a field of
    an environment record whose answer may depend on everything that
    happened so far; every call that is visible from outside is recorded
    in a trace carried by the flow state. *)

From Stdlib Require Import ZArith Lia List Ascii.
From stdpp Require Import base option list strings gmap pretty.
From Equations Require Import Equations.

Import ListNotations.
Local Open Scope string_scope.
Local Open Scope list_scope.

(** ** Data model *)

(** A Go [error] value is identified with its message. *)
Definition error := string.

(** What a collaborator hands back: Go's pair of a value and an error,
    of which the error is nil or not. *)
Inductive reply (A : Type) : Type :=
| Success (a : A)
| Failure (e : error).
Arguments Success {A} a.
Arguments Failure {A} e.

(** [err == nil] *)
Definition succeeded {A} (r : reply A) : bool :=
  match r with Success _ => true | Failure _ => false end.

(** What a method of the flow evaluates to: a value, a non-nil error, or
    a run-time panic (slice index out of range). *)
Inductive result (A : Type) : Type :=
| Ok (a : A)
| Err (e : error)
| Panic (msg : string).
Arguments Ok {A} a.
Arguments Err {A} e.
Arguments Panic {A} msg.

Definition of_reply {A} (r : reply A) : result A :=
  match r with Success a => Ok a | Failure e => Err e end.

(** Modelled from the spec: the [ClientMethod] constants are declared
    outside flow.go.  The spec lists four methods; the field is decoded
    from JSON, so any other value is kept as [methodOther]. *)
Inductive ClientMethod : Type :=
| methodCredential
| methodUserCredential
| methodServiceCredential
| methodBrowserToken
| methodOther (name : string).

(** Modelled from the spec: the [Provider] struct is declared outside
    flow.go; these are the fields flow.go reads. *)
Record ProviderConfig : Type := mkConfig { StartFlowURL : string }.

Record Provider : Type := mkProvider {
  ID : string;
  Type_ : string;
  clientMethod : ClientMethod;
  Config : ProviderConfig
}.

(** [Providers] is a Go map from provider ID to provider. *)
Abbreviation Providers := (gmap string Provider).

(** Modelled from the spec: [Providers.Slice] is declared outside
    flow.go; the spec describes it as the catalog viewed as an ordered
    sequence with a deterministic iteration order. *)
Definition Slice (providers : Providers) : list Provider :=
  (map_to_list providers).*2.

Record Credentials : Type := mkCredentials {
  UID : string;
  Password : string;
  Token : string
}.

(** The private key held by the resolved flags; its content is only
    looked at by the signer. *)
Definition PrivateKey := string.

(** Modelled from the spec: the [Flags] struct is declared outside
    flow.go; these are the fields flow.go reads. *)
Record Flags : Type := mkFlags {
  providerID : string;
  username : string;
  password_ : string;
  privateKey : PrivateKey
}.

(** A JWT before signing: the signing method and the claims. *)
Inductive ClaimValue : Type :=
| ClaimString (s : string)
| ClaimInt (z : Z).

Record JWT : Type := mkJWT {
  jwt_method : string;
  jwt_claims : gmap string ClaimValue
}.

(** Calls that are visible outside the flow, in the order they happen. *)
Inductive Event : Type :=
| EvLogInfo (msg : string)
| EvLogError (e : error)
| EvErrout (text : string)
| EvOpen (url : string)
| EvSelect (msg : string) (options : list Provider)
| EvInput (msg : string)
| EvPassword (msg : string)
| EvProviders
| EvLogin (endpoint : string) (c : Credentials).

(** The collaborators.  An answer may depend on the events so far. *)
Record Env : Type := mkEnv {
  flags_Resolve : Flags -> reply Flags;
  flags_Supports : Flags -> Provider -> bool;
  client_Providers : list Event -> reply Providers;
  client_Login : list Event -> string -> Credentials -> reply string;
  http_NewRequest : string -> string -> reply string;
  opener_Open : list Event -> string -> option error;
  prompt_Select : list Event -> string -> list Provider -> reply Z;
  prompt_Input : list Event -> string -> string;
  prompt_Password : list Event -> string -> string;
  time_Now : list Event -> Z;
  jwt_SignedString : JWT -> PrivateKey -> reply string
}.

(** The mutable part of a [Flow], and the trace of its calls. *)
Record Flow : Type := mkFlow {
  flags : Flags;
  interactive : bool;
  trace : list Event
}.

Definition NewFlow : Flow :=
  mkFlow (mkFlags "" "" "" "") false [].

(** ** The monad of flow operations

    A method of [Flow] reads and updates the flow and yields a result;
    the updates made before an error stay in place, as in Go. *)
Definition M (A : Type) : Type := Flow -> result A * Flow.

Global Instance M_ret : MRet M := fun A a f => (Ok a, f).

Global Instance M_bind : MBind M := fun A B k m f =>
  match m f with
  | (Ok a, f') => k a f'
  | (Err e, f') => (Err e, f')
  | (Panic msg, f') => (Panic msg, f')
  end.

Definition fail {A} (e : error) : M A := fun f => (Err e, f).
Definition panic {A} (msg : string) : M A := fun f => (Panic msg, f).
Definition lift {A} (r : reply A) : M A := fun f => (of_reply r, f).
Definition get : M Flow := fun f => (Ok f, f).
Definition emit (ev : Event) : M unit :=
  fun f => (Ok tt, mkFlow (flags f) (interactive f) (trace f ++ [ev])).
Definition set_interactive (b : bool) : M unit :=
  fun f => (Ok tt, mkFlow (flags f) b (trace f)).
Definition set_flags (fl : Flags) : M unit :=
  fun f => (Ok tt, mkFlow fl (interactive f) (trace f)).

(** Ask a collaborator whose answer depends on the history, then record
    the call. *)
Definition ask {A} (q : list Event -> A) (ev : Event) : M A :=
  fun f => (Ok (q (trace f)), mkFlow (flags f) (interactive f) (trace f ++ [ev])).

(** ** Provider selection (flow.go, [selectProvider]) *)

(** The candidate loop: providers the flags support are kept, the others
    are reported at info level. *)
Fixpoint candidates (env : Env) (l : list Provider) (acc : list Provider)
  : M (list Provider) :=
  match l with
  | [] => mret acc
  | provider :: rest =>
      f ← get;
      if flags_Supports env (flags f) provider
      then candidates env rest (acc ++ [provider])
      else
        emit (EvLogInfo ("Excluding provider '" +:+ ID provider
                           +:+ "' based on command-line flags."));;
        candidates env rest acc
  end.

(** [providerCandidates[i]] for a Go [int] index. *)
Definition index {A} (l : list A) (i : Z) : M A :=
  if (0 <=? i)%Z then
    match l !! Z.to_nat i with
    | Some x => mret x
    | None => panic "index out of range"
    end
  else panic "index out of range".

Definition selectProvider (env : Env) (providers : Providers) : M Provider :=
  f ← get;
  if negb (String.eqb (providerID (flags f)) "") then
    match providers !! providerID (flags f) with
    | Some provider => mret provider
    | None => fail ("unknown login provider ID '" +:+ providerID (flags f) +:+ "'")
    end
  else
    providerCandidates ← candidates env (Slice providers) [];
    match providerCandidates with
    | [] => fail "couldn't determine a login provider"
    | [provider] => mret provider
    | _ =>
        r ← ask (fun h => prompt_Select env h "Please select a login method:"
                            providerCandidates)
                (EvSelect "Please select a login method:" providerCandidates);
        i ← lift r;
        index providerCandidates i
    end.

(** ** Credential collection (flow.go, [uid] and [password]) *)

Definition uid (env : Env) : M string :=
  f ← get;
  if negb (String.eqb (username (flags f)) "") then mret (username (flags f))
  else
    set_interactive true;;
    ask (fun h => prompt_Input env h "Username: ") (EvInput "Username: ").

Definition password (env : Env) : M string :=
  f ← get;
  if negb (String.eqb (password_ (flags f)) "") then mret (password_ (flags f))
  else
    set_interactive true;;
    ask (fun h => prompt_Password env h "Password: ") (EvPassword "Password: ").

(** ** Service tokens (flow.go, [serviceToken]) *)

(** Go's [time.Time] as nanoseconds since the Unix epoch, and
    [time.Duration] as nanoseconds. *)
Definition Time := Z.
Definition Duration := Z.
Definition Second : Duration := 1000000000%Z.
Definition Minute : Duration := (60 * Second)%Z.
Definition time_Add (t : Time) (d : Duration) : Time := (t + d)%Z.
Definition time_Unix (t : Time) : Z := (t / Second)%Z.

Definition serviceClaims (uid : string) (now : Time) : gmap string ClaimValue :=
  {[ "uid" := ClaimString uid;
     "exp" := ClaimInt (time_Unix (time_Add now (5 * Minute)%Z)) ]}.

Definition serviceToken (env : Env) (uid : string) : M string :=
  f ← get;
  lift (jwt_SignedString env
          (mkJWT "RS256" (serviceClaims uid (time_Now env (trace f))))
          (privateKey (flags f))).

(** ** Opening the browser (flow.go, [openBrowser]) *)

Definition newline : string := String (Ascii.ascii_of_nat 10) EmptyString.

Definition fallbackMessage (url : string) : string :=
  "If your browser didn't open, please follow this link:" +:+ newline
    +:+ newline +:+ "    " +:+ url +:+ newline +:+ newline.

Definition resolveURL (env : Env) (startFlowURL : string) : reply string :=
  if String.prefix "/" startFlowURL
  then http_NewRequest env "GET" startFlowURL
  else Success startFlowURL.

Definition openBrowser (env : Env) (startFlowURL : string) : M unit :=
  url ← lift (resolveURL env startFlowURL);
  r ← ask (fun h => opener_Open env h url) (EvOpen url);
  match r with
  | Some err => emit (EvLogError err)
  | None => mret tt
  end;;
  emit (EvErrout (fallbackMessage url)).

(** ** The attempt loop (flow.go, [triggerMethod]) *)

(** The [switch] on the client method inside the loop.  The login
    endpoint and the credentials are the variables declared before the
    loop; each case overwrites the parts it uses. *)
Definition acquire (env : Env) (provider : Provider) (attempt : nat)
    (loginEndpoint : string) (credentials : Credentials)
  : M (string * Credentials) :=
  match clientMethod provider with
  | methodCredential | methodUserCredential =>
      u ← uid env;
      p ← password env;
      mret (StartFlowURL (Config provider),
            mkCredentials u p (Token credentials))
  | methodServiceCredential =>
      u ← uid env;
      token ← serviceToken env u;
      mret (loginEndpoint, mkCredentials u (Password credentials) token)
  | methodBrowserToken =>
      (if Nat.eqb attempt 1
       then openBrowser env (StartFlowURL (Config provider))
       else mret tt);;
      set_interactive true;;
      token ← ask (fun h => prompt_Input env h "Enter token from the browser: ")
                  (EvInput "Enter token from the browser: ");
      mret (loginEndpoint,
            mkCredentials (UID credentials) (Password credentials) token)
  | methodOther _ => mret (loginEndpoint, credentials)
  end.

(** [f.client.Login(loginEndpoint, credentials)]: the answer of the
    endpoint is a value of the flow, not yet an exit of it. *)
Definition login (env : Env) (loginEndpoint : string) (credentials : Credentials)
  : M (reply string) :=
  ask (fun h => client_Login env h loginEndpoint credentials)
      (EvLogin loginEndpoint credentials).

(** [for attempt := 1; ; attempt++ { ... }].  The loop is left when the
    login succeeded, when the flow is not interactive, or when
    [attempt >= 3]; so [3 - attempt] decreases on every turn. *)
Equations? triggerLoop (env : Env) (provider : Provider) (attempt : nat)
    (loginEndpoint : string) (credentials : Credentials) (f : Flow)
  : result string * Flow by wf (3 - attempt) lt :=
triggerLoop env provider attempt loginEndpoint credentials f :=
  match acquire env provider attempt loginEndpoint credentials f with
  | (Ok (loginEndpoint', credentials'), f1) =>
      match login env loginEndpoint' credentials' f1 with
      | (Ok r, f2) =>
          if succeeded r || negb (interactive f2) then (of_reply r, f2)
          else
            match decide (3 <= attempt) with
            | left _ => (of_reply r, f2)
            | right _ =>
                triggerLoop env provider (S attempt) loginEndpoint' credentials' f2
            end
      | (Err e, f2) => (Err e, f2)
      | (Panic msg, f2) => (Panic msg, f2)
      end
  | (Err e, f1) => (Err e, f1)
  | (Panic msg, f1) => (Panic msg, f1)
  end.
Proof. lia. Qed.

Definition triggerMethod (env : Env) (provider : Provider) : M string :=
  triggerLoop env provider 1 "" (mkCredentials "" "" "").

(** ** The whole flow (flow.go, [Start]) *)

Definition Start (env : Env) (fl : Flags) : M string :=
  resolved ← lift (flags_Resolve env fl);
  set_flags resolved;;
  r ← ask (client_Providers env) EvProviders;
  providers ← lift r;
  provider ← selectProvider env providers;
  emit (EvLogInfo ("Using login provider '" +:+ Type_ provider +:+ "'."));;
  triggerMethod env provider.

(** ** Reading a trace *)

Definition logins (l : list Event) : list (string * Credentials) :=
  omap (fun ev => match ev with EvLogin ep c => Some (ep, c) | _ => None end) l.

Definition opens (l : list Event) : list string :=
  omap (fun ev => match ev with EvOpen url => Some url | _ => None end) l.

Definition errouts (l : list Event) : list string :=
  omap (fun ev => match ev with EvErrout text => Some text | _ => None end) l.

Definition selects (l : list Event) : list (list Provider) :=
  omap (fun ev => match ev with EvSelect _ options => Some options | _ => None end) l.

(** The flow after some more events. *)
Definition after (f : Flow) (evs : list Event) : Flow :=
  mkFlow (flags f) (interactive f) (trace f ++ evs).

(** ** Notions used by the statements *)

(** The info lines of the candidate loop. *)
Definition exclusions (env : Env) (fl : Flags) (l : list Provider) : list Event :=
  map (fun provider =>
         EvLogInfo ("Excluding provider '" +:+ ID provider
                      +:+ "' based on command-line flags."))
      (List.filter (fun provider => negb (flags_Supports env fl provider)) l).

(** The providers the flags are compatible with, in catalog order. *)
Definition compatible (env : Env) (fl : Flags) (providers : Providers)
  : list Provider :=
  List.filter (flags_Supports env fl) (Slice providers).

(** What the answer of the selection prompt selects. *)
Definition selected (l : list Provider) (r : reply Z) : result Provider :=
  match r with
  | Success i =>
      match (if (0 <=? i)%Z then l !! Z.to_nat i else None) with
      | Some provider => Ok provider
      | None => Panic "index out of range"
      end
  | Failure e => Err e
  end.

(** Some credential value of this provider's method is not given by a
    flag, so that acquiring the credentials prompts for it. *)
Definition prompts (fl : Flags) (provider : Provider) : bool :=
  match clientMethod provider with
  | methodCredential | methodUserCredential =>
      String.eqb (username fl) "" || String.eqb (password_ fl) ""
  | methodServiceCredential => String.eqb (username fl) ""
  | methodBrowserToken => true
  | methodOther _ => false
  end.

(** The login endpoint rejects every submission. *)
Definition rejecting (env : Env) : Prop :=
  forall h ep c, succeeded (client_Login env h ep c) = false.

(** No attempt ends before its submission: the signer accepts the key
    (service credentials), the start-flow URL resolves (browser token). *)
Definition reaches_login (env : Env) (fl : Flags) (provider : Provider) : Prop :=
  match clientMethod provider with
  | methodServiceCredential =>
      forall jwt, succeeded (jwt_SignedString env jwt (privateKey fl)) = true
  | methodBrowserToken =>
      succeeded (resolveURL env (StartFlowURL (Config provider))) = true
  | _ => True
  end.

(** The events of [openBrowser] once the URL is resolved to [url], after
    history [h]: the opener is called, its error (if any) is logged, the
    fallback message is written. *)
Definition browserEvents (env : Env) (h : list Event) (url : string)
  : list Event :=
  EvOpen url
    :: match opener_Open env h url with
       | Some err => [EvLogError err]
       | None => []
       end
    ++ [EvErrout (fallbackMessage url)].

(** The events of browser-token attempts with the given credentials: a
    token prompt and a submission each. *)
Definition tokenAttempts (cs : list Credentials) : list Event :=
  flat_map (fun c => [EvInput "Enter token from the browser: "; EvLogin "" c]) cs.

(** ** Concrete scenarios *)

Module Scenario.

Definition p1 : Provider :=
  mkProvider "p1" "Credential provider" methodCredential
             (mkConfig "/acs/api/v1/auth/login").
Definition p2 : Provider :=
  mkProvider "p2" "Browser provider" methodBrowserToken
             (mkConfig "/login?redirect=cli").
Definition p3 : Provider :=
  mkProvider "p3" "Service provider" methodServiceCredential
             (mkConfig "/acs/api/v1/auth/login").

Definition catalog : Providers := {[ "p1" := p1; "p2" := p2 ]}.

(** A cluster whose login endpoint rejects every submission, each time
    with an error that tells how many events preceded it; the user
    picks the first option and types the same answers every time. *)
Definition cluster : Env := {|
  flags_Resolve := Success;
  flags_Supports := fun _ _ => true;
  client_Providers := fun _ => Success catalog;
  client_Login := fun h _ _ =>
    Failure ("rejected after " +:+ pretty (length h) +:+ " events");
  http_NewRequest := fun _ path => Success ("https://cluster.example" +:+ path);
  opener_Open := fun _ _ => Some "exec: xdg-open not found";
  prompt_Select := fun _ _ _ => Success 0%Z;
  prompt_Input := fun _ _ => "alice";
  prompt_Password := fun _ _ => "secret";
  time_Now := fun _ => 1700000000123456789%Z;
  jwt_SignedString := fun _ _ => Success "header.payload.signature"
|}.

(** The same cluster, with flags that are compatible with no provider. *)
Definition picky : Env := {|
  flags_Resolve := flags_Resolve cluster;
  flags_Supports := fun _ _ => false;
  client_Providers := client_Providers cluster;
  client_Login := client_Login cluster;
  http_NewRequest := http_NewRequest cluster;
  opener_Open := opener_Open cluster;
  prompt_Select := prompt_Select cluster;
  prompt_Input := prompt_Input cluster;
  prompt_Password := prompt_Password cluster;
  time_Now := time_Now cluster;
  jwt_SignedString := jwt_SignedString cluster
|}.

(** The same cluster, behind a transport that cannot build a request
    for the start-flow path. *)
Definition broken : Env := {|
  flags_Resolve := flags_Resolve cluster;
  flags_Supports := flags_Supports cluster;
  client_Providers := client_Providers cluster;
  client_Login := client_Login cluster;
  http_NewRequest := fun _ _ => Failure "parse: invalid URL escape";
  opener_Open := opener_Open cluster;
  prompt_Select := prompt_Select cluster;
  prompt_Input := prompt_Input cluster;
  prompt_Password := prompt_Password cluster;
  time_Now := time_Now cluster;
  jwt_SignedString := jwt_SignedString cluster
|}.

(** A flow started with no flags, with a provider ID, and with a user
    name and a password. *)
Definition noFlags : Flow := NewFlow.
Definition withID (id : string) : Flow :=
  mkFlow (mkFlags id "" "" "") false [].
Definition withCredentials : Flow :=
  mkFlow (mkFlags "" "alice" "secret" "") false [].

End Scenario.

(** ** Further notions for the statements *)

Definition fetches (l : list Event) : list unit :=
  omap (fun ev => match ev with EvProviders => Some tt | _ => None end) l.

(** The values typed at a prompt, by its message. *)
Definition prompted (l : list Event) : list string :=
  omap (fun ev => match ev with
                  | EvInput msg | EvPassword msg => Some msg
                  | _ => None
                  end) l.

(** ** Further scenarios *)

Module Cases.

(** The cluster of [Scenario], with a login endpoint that rejects the
    first submission of a flow and accepts the next one. *)
Definition forgiving : Env := {|
  flags_Resolve := flags_Resolve Scenario.cluster;
  flags_Supports := flags_Supports Scenario.cluster;
  client_Providers := client_Providers Scenario.cluster;
  client_Login := fun h _ _ =>
    match logins h with
    | [] => Failure "rejected"
    | _ => Success "acs-token"
    end;
  http_NewRequest := http_NewRequest Scenario.cluster;
  opener_Open := fun _ _ => None;
  prompt_Select := fun _ _ _ => Success 1%Z;
  prompt_Input := prompt_Input Scenario.cluster;
  prompt_Password := prompt_Password Scenario.cluster;
  time_Now := time_Now Scenario.cluster;
  jwt_SignedString := jwt_SignedString Scenario.cluster
|}.

(** The same, with flags that only support browser-token providers, and
    a signer that refuses the key. *)
Definition keyless : Env := {|
  flags_Resolve := flags_Resolve forgiving;
  flags_Supports := fun _ provider =>
    match clientMethod provider with methodBrowserToken => true | _ => false end;
  client_Providers := client_Providers forgiving;
  client_Login := client_Login forgiving;
  http_NewRequest := http_NewRequest forgiving;
  opener_Open := opener_Open forgiving;
  prompt_Select := prompt_Select forgiving;
  prompt_Input := prompt_Input forgiving;
  prompt_Password := prompt_Password forgiving;
  time_Now := time_Now forgiving;
  jwt_SignedString := fun _ _ => Failure "key is invalid"
|}.

(** The cluster of [Scenario], with a user who answers the selection
    prompt with an option that is not on the list. *)
Definition clumsy : Env := {|
  flags_Resolve := flags_Resolve Scenario.cluster;
  flags_Supports := flags_Supports Scenario.cluster;
  client_Providers := client_Providers Scenario.cluster;
  client_Login := client_Login Scenario.cluster;
  http_NewRequest := http_NewRequest Scenario.cluster;
  opener_Open := opener_Open Scenario.cluster;
  prompt_Select := fun _ _ _ => Success 7%Z;
  prompt_Input := prompt_Input Scenario.cluster;
  prompt_Password := prompt_Password Scenario.cluster;
  time_Now := time_Now Scenario.cluster;
  jwt_SignedString := jwt_SignedString Scenario.cluster
|}.

(** Flags that do not go together. *)
Definition down : Env := {|
  flags_Resolve := fun _ => Failure "--username and --private-key are exclusive";
  flags_Supports := flags_Supports forgiving;
  client_Providers := client_Providers forgiving;
  client_Login := client_Login forgiving;
  http_NewRequest := http_NewRequest forgiving;
  opener_Open := opener_Open forgiving;
  prompt_Select := fun _ _ _ => Failure "EOF";
  prompt_Input := prompt_Input forgiving;
  prompt_Password := prompt_Password forgiving;
  time_Now := time_Now forgiving;
  jwt_SignedString := jwt_SignedString forgiving
|}.

(** The catalog is fetched, the flags resolve, the prompt is closed. *)
Definition mute : Env := {|
  flags_Resolve := Success;
  flags_Supports := flags_Supports forgiving;
  client_Providers := client_Providers forgiving;
  client_Login := client_Login forgiving;
  http_NewRequest := http_NewRequest forgiving;
  opener_Open := opener_Open forgiving;
  prompt_Select := prompt_Select down;
  prompt_Input := prompt_Input forgiving;
  prompt_Password := prompt_Password forgiving;
  time_Now := time_Now forgiving;
  jwt_SignedString := jwt_SignedString forgiving
|}.

(** The flags resolve, the cluster does not answer. *)
Definition offline : Env := {|
  flags_Resolve := Success;
  flags_Supports := flags_Supports forgiving;
  client_Providers := fun _ => Failure "connection refused";
  client_Login := client_Login forgiving;
  http_NewRequest := http_NewRequest forgiving;
  opener_Open := opener_Open forgiving;
  prompt_Select := prompt_Select forgiving;
  prompt_Input := prompt_Input forgiving;
  prompt_Password := prompt_Password forgiving;
  time_Now := time_Now forgiving;
  jwt_SignedString := jwt_SignedString forgiving
|}.

End Cases.

(** ** The collaborators of a new flow (flow.go, [NewFlow])

    [NewFlow] fills in the options that are nil.  Writers, prompts,
    formatters and openers are values of other packages, so their types
    are parameters, and so are three of the defaults: the standard
    error stream, the prompt on standard input and output, and the
    opener of the operating system made for a given logger.  The
    default logger is a struct literal of [NewFlow] itself. *)

Module Wiring.

Inductive logrus_Level : Type :=
| PanicLevel | FatalLevel | ErrorLevel | WarnLevel
| InfoLevel | DebugLevel | TraceLevel.

(** The fields of a logger that [NewFlow] sets or leaves nil. *)
Record logrus_Logger (W F : Type) : Type := mkLogger {
  Out : W;
  Formatter : option F;
  Level : logrus_Level
}.
Arguments mkLogger {W F} _ _ _.
Arguments Out {W F} _.
Arguments Formatter {W F} _.
Arguments Level {W F} _.

Record FlowOpts (W P F O : Type) : Type := mkFlowOpts {
  Errout : option W;
  Prompt : option P;
  Logger : option (logrus_Logger W F);
  Opener : option O
}.
Arguments mkFlowOpts {W P F O} _ _ _ _.
Arguments Errout {W P F O} _.
Arguments Prompt {W P F O} _.
Arguments Logger {W P F O} _.
Arguments Opener {W P F O} _.

Record Defaults (W P F O : Type) : Type := mkDefaults {
  os_Stderr : W;
  prompt_New : P;
  open_NewOsOpener : logrus_Logger W F -> O
}.
Arguments mkDefaults {W P F O} _ _ _.
Arguments os_Stderr {W P F O} _.
Arguments prompt_New {W P F O} _.
Arguments open_NewOsOpener {W P F O} _ _.

(** The collaborator fields of the [Flow] that is returned. *)
Record Collaborators (W P F O : Type) : Type := mkCollaborators {
  errout : W;
  prompt : P;
  logger : logrus_Logger W F;
  opener : O
}.
Arguments mkCollaborators {W P F O} _ _ _ _.
Arguments errout {W P F O} _.
Arguments prompt {W P F O} _.
Arguments logger {W P F O} _.
Arguments opener {W P F O} _.

Definition NewFlow {W P F O : Type} (d : Defaults W P F O)
    (opts : FlowOpts W P F O) : Collaborators W P F O :=
  let opts_Errout := match Errout opts with Some w => w | None => os_Stderr d end in
  let opts_Prompt := match Prompt opts with Some p => p | None => prompt_New d end in
  let opts_Logger :=
    match Logger opts with
    | Some l => l
    | None => mkLogger opts_Errout None InfoLevel
    end in
  let opts_Opener :=
    match Opener opts with Some o => o | None => open_NewOsOpener d opts_Logger end in
  mkCollaborators opts_Errout opts_Prompt opts_Logger opts_Opener.

(** Streams, prompts, formatters and openers by name. *)
Definition named : Defaults string string string string :=
  mkDefaults "stderr" "prompt(stdin, stdout)"
             (fun l => "os-opener(" +:+ Out l +:+ ")").

End Wiring.

(** ** Listing plugins (the plugin list subcommand)

    The command asks the context for the current cluster and its
    plugins, and prints them as JSON or as a table of names and
    commands. *)

Module PluginList.

Record Command : Type := mkCommand { command_Name : string }.

Record Plugin : Type := mkPlugin {
  Name : string;
  Commands : list Command
}.

(** What is written to the output of the context. *)
Inductive Output : Type :=
| OutJSON (indent : string) (plugins : list Plugin)
| OutTable (header : list string)
| OutAppend (row : list string)
| OutRender.

(** The context: the current cluster or an error, the plugins of a
    cluster, and what encoding a list of plugins to the output returns. *)
Record Context (C : Type) : Type := mkContext {
  ctx_Cluster : reply C;
  ctx_Plugins : C -> list Plugin;
  ctx_Encode : list Plugin -> option error
}.
Arguments mkContext {C} _ _ _.
Arguments ctx_Cluster {C} _.
Arguments ctx_Plugins {C} _ _.
Arguments ctx_Encode {C} _ _.

(** The inner loop: the names of the commands, in order. *)
Fixpoint commandNames (commands : list Command) (acc : list string)
  : list string :=
  match commands with
  | [] => acc
  | command :: rest => commandNames rest (acc ++ [command_Name command])
  end.

(** [strings.Join(elems, sep)] *)
Fixpoint Join (elems : list string) (sep : string) : string :=
  match elems with
  | [] => ""
  | [x] => x
  | x :: rest => x +:+ sep +:+ Join rest sep
  end.

Definition row (plugin : Plugin) : list string :=
  [Name plugin; Join (commandNames (Commands plugin) []) " "].

(** The outer loop: one row per plugin. *)
Fixpoint rows (plugins : list Plugin) : list Output :=
  match plugins with
  | [] => []
  | plugin :: rest => OutAppend (row plugin) :: rows rest
  end.

(** The [RunE] function of the command; [None] is a nil error. *)
Definition RunE {C : Type} (ctx : Context C) (jsonOutput : bool)
  : option error * list Output :=
  match ctx_Cluster ctx with
  | Failure err => (Some err, [])
  | Success cluster =>
      let plugins := ctx_Plugins ctx cluster in
      if jsonOutput
      then (ctx_Encode ctx plugins, [OutJSON "    " plugins])
      else (None, OutTable ["NAME"; "COMMANDS"] :: rows plugins ++ [OutRender])
  end.

(** Reading the output. *)
Definition appended (l : list Output) : list (list string) :=
  omap (fun o => match o with OutAppend r => Some r | _ => None end) l.

Definition encoded (l : list Output) : list (list Plugin) :=
  omap (fun o => match o with OutJSON _ plugins => Some plugins | _ => None end) l.

(** Cutting a string at every space, as [strings.Split(s, " ")] does. *)
Fixpoint Split (s : string) : list string :=
  match s with
  | EmptyString => [""]
  | String a rest =>
      if Ascii.eqb a " "%char
      then "" :: Split rest
      else match Split rest with
           | w :: ws => String a w :: ws
           | [] => [String a ""]
           end
  end.

Fixpoint spaceless (s : string) : bool :=
  match s with
  | EmptyString => true
  | String a rest => negb (Ascii.eqb a " "%char) && spaceless rest
  end.

(** Two plugins, and a context that has them. *)
Definition core : Plugin :=
  mkPlugin "dcos-core-cli"
           [mkCommand "job"; mkCommand "marathon"; mkCommand "node"].
Definition bare : Plugin := mkPlugin "empty" [].

Definition attached : Context string :=
  mkContext (Success "prod") (fun _ => [core; bare]) (fun _ => None).
Definition detached : Context string :=
  mkContext (Failure "no cluster is attached") (fun _ => [core; bare])
            (fun _ => None).

End PluginList.

(** ** Proof steps *)

(** Unfold the operations of the monad. *)
Ltac run :=
  unfold mbind, M_bind, mret, M_ret, get, emit, ask, lift, fail, panic,
    set_interactive, set_flags, after in *;
  simpl in *.

(** Close an existential on the outcome of an acquisition once the goal
    is computed: the new events are what was appended, or none. *)
Ltac close_acquire :=
  rewrite ?orb_true_r, ?orb_false_r, <- ?app_assoc;
  first [ by eexists _, _, _; split; [reflexivity|]
        | by eexists _, _, []; rewrite app_nil_r; split; [reflexivity|] ].

(** * Properties *)

(** ** Running the monad *)
Lemma bind_run {A B} (m : M A) (k : A -> M B) (f : Flow) :
  (m ≫= k) f
  = match m f with
    | (Ok a, f') => k a f'
    | (Err e, f') => (Err e, f')
    | (Panic msg, f') => (Panic msg, f')
    end.
Proof. reflexivity. Qed.

Lemma bind_get {B} (k : Flow -> M B) (f : Flow) : (get ≫= k) f = k f f.
Proof. reflexivity. Qed.

Lemma after_nil (f : Flow) : after f [] = f.
Proof. destruct f; unfold after; simpl. by rewrite app_nil_r. Qed.

Lemma after_after (f : Flow) (evs evs' : list Event) :
  after (after f evs) evs' = after f (evs ++ evs').
Proof. unfold after; simpl. by rewrite app_assoc. Qed.

Lemma logins_app (l l' : list Event) : logins (l ++ l') = logins l ++ logins l'.
Proof. apply omap_app. Qed.

Lemma opens_app (l l' : list Event) : opens (l ++ l') = opens l ++ opens l'.
Proof. apply omap_app. Qed.

Lemma errouts_app (l l' : list Event) : errouts (l ++ l') = errouts l ++ errouts l'.
Proof. apply omap_app. Qed.

Lemma eqb_empty (s : string) : String.eqb s "" = true <-> s = "".
Proof. apply String.eqb_eq. Qed.

(** ** Provider selection *)

Lemma candidates_spec (env : Env) (l : list Provider) :
  forall (acc : list Provider) (f : Flow),
    candidates env l acc f
    = (Ok (acc ++ List.filter (flags_Supports env (flags f)) l),
       after f (exclusions env (flags f) l)).
Proof.
  induction l as [|provider rest IH]; intros acc f.
  - simpl. run. by rewrite !app_nil_r; destruct f.
  - simpl. run. unfold exclusions. simpl.
    destruct (flags_Supports env (flags f) provider) eqn:Hs; simpl.
    + rewrite IH. unfold exclusions, after. by rewrite <- app_assoc.
    + rewrite IH. unfold exclusions, after. simpl. by rewrite <- app_assoc.
Qed.

Lemma exclusions_quiet (env : Env) (fl : Flags) (l : list Provider) :
  logins (exclusions env fl l) = [] /\ opens (exclusions env fl l) = []
  /\ errouts (exclusions env fl l) = [] /\ selects (exclusions env fl l) = [].
Proof.
  unfold exclusions.
  induction (List.filter _ l) as [|x xs IH]; simpl; [done|].
  unfold logins, opens, errouts, selects in *; simpl. tauto.
Qed.

Lemma Slice_elem (providers : Providers) (provider : Provider) :
  provider ∈ Slice providers <-> exists id, providers !! id = Some provider.
Proof.
  unfold Slice. rewrite list_elem_of_fmap. split.
  - intros [[id q] [-> Hin]]. exists id. by apply elem_of_map_to_list in Hin.
  - intros [id Hid]. exists (id, provider). split; [done|].
    by apply elem_of_map_to_list.
Qed.

Lemma filter_none {A} (g : A -> bool) (l : list A) :
  (forall x, x ∈ l -> g x = false) -> List.filter g l = [].
Proof.
  induction l as [|x xs IH]; intros Hall; simpl; [done|].
  rewrite (Hall x) by apply list_elem_of_here.
  apply IH. intros y Hy. apply Hall. by apply list_elem_of_further.
Qed.

(** Selection when no provider ID is given, before the [switch] on the
    number of candidates. *)
Lemma selectProvider_filtered (env : Env) (providers : Providers) (f : Flow) :
  providerID (flags f) = "" ->
  selectProvider env providers f
  = let l := compatible env (flags f) providers in
    let f1 := after f (exclusions env (flags f) (Slice providers)) in
    match l with
    | [] => (Err "couldn't determine a login provider", f1)
    | [provider] => (Ok provider, f1)
    | _ =>
        (selected l (prompt_Select env (trace f1) "Please select a login method:" l),
         after f1 [EvSelect "Please select a login method:" l])
    end.
Proof.
  intros Hid. unfold selectProvider, compatible.
  rewrite bind_get, Hid. change (negb (String.eqb "" "")) with false. cbv iota.
  rewrite bind_run, candidates_spec. simpl app.
  destruct (List.filter _ _) as [|a [|b l]]; [done | done |].
  cbv zeta. run.
  destruct (prompt_Select env _ _ _) as [i|e]; simpl; [|done].
  unfold index. destruct (0 <=? i)%Z; [|done].
  by destruct (_ !! _).
Qed.

(** C5. When the resolved flags carry a provider ID, selection is the
    catalog lookup of that ID and nothing else: the entry is returned
    whatever the compatibility predicate says about it, no event
    happens, and an ID that the catalog lacks gives an error that names
    the ID. *)
Theorem explicit_selection (env : Env) (providers : Providers) (f : Flow) :
  providerID (flags f) <> "" ->
  selectProvider env providers f
  = (match providers !! providerID (flags f) with
     | Some provider => Ok provider
     | None => Err ("unknown login provider ID '" +:+ providerID (flags f) +:+ "'")
     end, f).
Proof.
  intros Hid. unfold selectProvider. run.
  destruct (String.eqb (providerID (flags f)) "") eqn:E.
  - by apply eqb_empty in E.
  - simpl. by destruct (providers !! providerID (flags f)).
Qed.

(** An incompatible provider is returned when asked for by ID, and an
    ID that is not in the catalog fails. *)
Lemma explicit_selection_witness :
  flags_Supports Scenario.picky (flags (Scenario.withID "p1")) Scenario.p1 = false
  /\ selectProvider Scenario.picky Scenario.catalog (Scenario.withID "p1")
     = (Ok Scenario.p1, Scenario.withID "p1")
  /\ selectProvider Scenario.picky Scenario.catalog (Scenario.withID "missing")
     = (Err "unknown login provider ID 'missing'", Scenario.withID "missing").
Proof.
  split; [reflexivity|]. split.
  - rewrite (explicit_selection Scenario.picky Scenario.catalog (Scenario.withID "p1"))
      by (simpl; discriminate).
    vm_compute. reflexivity.
  - rewrite (explicit_selection Scenario.picky Scenario.catalog (Scenario.withID "missing"))
      by (simpl; discriminate).
    vm_compute. reflexivity.
Defined.

(** C1, as the code has it.  When no provider ID is given and more than
    one provider is compatible, the user is asked once, the provider at
    the index that the prompt returns is selected, and the interactivity
    flag keeps the value it had before the selection. *)
Theorem manual_selection_keeps_flag (env : Env) (providers : Providers) (f : Flow) :
  providerID (flags f) = "" ->
  2 <= length (compatible env (flags f) providers) ->
  let l := compatible env (flags f) providers in
  let h := trace f ++ exclusions env (flags f) (Slice providers) in
  fst (selectProvider env providers f)
  = selected l (prompt_Select env h "Please select a login method:" l)
  /\ trace (snd (selectProvider env providers f))
     = h ++ [EvSelect "Please select a login method:" l]
  /\ interactive (snd (selectProvider env providers f)) = interactive f.
Proof.
  intros Hid Hlen. cbv zeta. rewrite selectProvider_filtered by done.
  cbv zeta.
  destruct (compatible env (flags f) providers) as [|a [|b l']];
    simpl in Hlen; [lia | lia |].
  done.
Qed.

Lemma manual_selection_keeps_flag_witness :
  fst (selectProvider Scenario.cluster Scenario.catalog Scenario.withCredentials)
  = Ok Scenario.p1
  /\ trace (snd (selectProvider Scenario.cluster Scenario.catalog Scenario.withCredentials))
     = [EvSelect "Please select a login method:" [Scenario.p1; Scenario.p2]]
  /\ interactive (snd (selectProvider Scenario.cluster Scenario.catalog
                         Scenario.withCredentials)) = false.
Proof.
  assert (Hid : providerID (flags Scenario.withCredentials) = "") by reflexivity.
  assert (Hlen : 2 <= length (compatible Scenario.cluster
                                (flags Scenario.withCredentials) Scenario.catalog))
    by (vm_compute; lia).
  exact (manual_selection_keeps_flag Scenario.cluster Scenario.catalog
           Scenario.withCredentials Hid Hlen).
Defined.

(** C1, as the spec has it, fails: two compatible providers, no provider
    ID, the user picks the first one, and the flag is still false. *)
Lemma manual_selection_sets_flag_counterexample :
  providerID (flags Scenario.noFlags) = ""
  /\ compatible Scenario.cluster (flags Scenario.noFlags) Scenario.catalog
     = [Scenario.p1; Scenario.p2]
  /\ fst (selectProvider Scenario.cluster Scenario.catalog Scenario.noFlags)
     = Ok Scenario.p1
  /\ selects (trace (snd (selectProvider Scenario.cluster Scenario.catalog
                            Scenario.noFlags)))
     = [[Scenario.p1; Scenario.p2]]
  /\ interactive (snd (selectProvider Scenario.cluster Scenario.catalog
                         Scenario.noFlags)) <> true.
Proof. vm_compute. repeat split; discriminate. Qed.

(** ** Opening the browser *)

Lemma browserEvents_read (env : Env) (h : list Event) (url : string) :
  opens (browserEvents env h url) = [url]
  /\ errouts (browserEvents env h url) = [fallbackMessage url]
  /\ logins (browserEvents env h url) = [].
Proof. unfold browserEvents. by destruct (opener_Open env h url). Qed.

Lemma openBrowser_resolved (env : Env) (startFlowURL url : string) (f : Flow) :
  resolveURL env startFlowURL = Success url ->
  openBrowser env startFlowURL f = (Ok tt, after f (browserEvents env (trace f) url)).
Proof.
  intros Hurl. unfold openBrowser, browserEvents. run. rewrite Hurl. simpl.
  destruct (opener_Open env (trace f) url); simpl;
    by rewrite <- !app_assoc.
Qed.

Lemma openBrowser_unresolved (env : Env) (startFlowURL : string) (e : error)
    (f : Flow) :
  resolveURL env startFlowURL = Failure e ->
  openBrowser env startFlowURL f = (Err e, f).
Proof. intros Hurl. unfold openBrowser. run. by rewrite Hurl. Qed.

(** C9. A start-flow URL that begins with a slash is handed to the
    transport's request builder first: what is opened and what is
    printed is the URL of the request it builds, and when it builds none
    nothing is opened or printed.  Any other URL is opened and printed
    as it is. *)
Theorem openBrowser_resolves_relative (env : Env) (startFlowURL : string)
    (f : Flow) :
  let r := openBrowser env startFlowURL f in
  if String.prefix "/" startFlowURL then
    match http_NewRequest env "GET" startFlowURL with
    | Success url =>
        fst r = Ok tt
        /\ opens (trace (snd r)) = opens (trace f) ++ [url]
        /\ errouts (trace (snd r)) = errouts (trace f) ++ [fallbackMessage url]
    | Failure e => r = (Err e, f)
    end
  else
    fst r = Ok tt
    /\ opens (trace (snd r)) = opens (trace f) ++ [startFlowURL]
    /\ errouts (trace (snd r)) = errouts (trace f) ++ [fallbackMessage startFlowURL].
Proof.
  cbv zeta.
  assert (Hok : forall url, resolveURL env startFlowURL = Success url ->
            fst (openBrowser env startFlowURL f) = Ok tt
            /\ opens (trace (snd (openBrowser env startFlowURL f)))
               = opens (trace f) ++ [url]
            /\ errouts (trace (snd (openBrowser env startFlowURL f)))
               = errouts (trace f) ++ [fallbackMessage url]).
  { intros url Hurl. rewrite (openBrowser_resolved _ _ _ _ Hurl). simpl.
    rewrite opens_app, errouts_app.
    destruct (browserEvents_read env (trace f) url) as (-> & -> & _). done. }
  destruct (String.prefix "/" startFlowURL) eqn:Hp.
  - destruct (http_NewRequest env "GET" startFlowURL) as [url|e] eqn:Hreq.
    + apply Hok. unfold resolveURL. by rewrite Hp.
    + apply openBrowser_unresolved. unfold resolveURL. by rewrite Hp.
  - apply Hok. unfold resolveURL. by rewrite Hp.
Qed.

(** ** Acquiring credentials *)

Lemma acquire_browser_first (env : Env) (provider : Provider) (url : string)
    (ep : string) (c : Credentials) (f : Flow) :
  clientMethod provider = methodBrowserToken ->
  resolveURL env (StartFlowURL (Config provider)) = Success url ->
  let h := trace f ++ browserEvents env (trace f) url in
  acquire env provider 1 ep c f
  = (Ok (ep, mkCredentials (UID c) (Password c)
               (prompt_Input env h "Enter token from the browser: ")),
     mkFlow (flags f) true (h ++ [EvInput "Enter token from the browser: "])).
Proof.
  intros Hm Hurl. unfold acquire. rewrite Hm. simpl Nat.eqb. cbv iota zeta.
  rewrite bind_run, (openBrowser_resolved _ _ _ _ Hurl). by run.
Qed.

Lemma acquire_browser_unresolved (env : Env) (provider : Provider) (e : error)
    (ep : string) (c : Credentials) (f : Flow) :
  clientMethod provider = methodBrowserToken ->
  resolveURL env (StartFlowURL (Config provider)) = Failure e ->
  acquire env provider 1 ep c f = (Err e, f).
Proof.
  intros Hm Hurl. unfold acquire. rewrite Hm. simpl Nat.eqb. cbv iota.
  by rewrite bind_run, (openBrowser_unresolved _ _ _ _ Hurl).
Qed.

Lemma acquire_browser_next (env : Env) (provider : Provider) (attempt : nat)
    (ep : string) (c : Credentials) (f : Flow) :
  clientMethod provider = methodBrowserToken ->
  attempt <> 1 ->
  acquire env provider attempt ep c f
  = (Ok (ep, mkCredentials (UID c) (Password c)
               (prompt_Input env (trace f) "Enter token from the browser: ")),
     mkFlow (flags f) true (trace f ++ [EvInput "Enter token from the browser: "])).
Proof.
  intros Hm Hn. unfold acquire. rewrite Hm.
  destruct (Nat.eqb_spec attempt 1) as [->|_]; [done|]. by run.
Qed.

(** An attempt that reaches its submission leaves the flags alone, sets
    the flag exactly when it prompts, and submits nothing yet. *)
Lemma acquire_reaches (env : Env) (provider : Provider) (attempt : nat)
    (ep : string) (c : Credentials) (f : Flow) :
  reaches_login env (flags f) provider ->
  exists ep' c' evs,
    acquire env provider attempt ep c f
    = (Ok (ep', c'),
       mkFlow (flags f) (interactive f || prompts (flags f) provider)
              (trace f ++ evs))
    /\ logins evs = [].
Proof.
  unfold reaches_login, prompts. intros Hreach.
  destruct (clientMethod provider) eqn:Hm.
  - unfold acquire, uid, password. rewrite Hm. run.
    destruct f as [fl i h]; simpl.
    destruct (String.eqb (username fl) ""); simpl;
      destruct (String.eqb (password_ fl) ""); simpl; close_acquire.
  - unfold acquire, uid, password. rewrite Hm. run.
    destruct f as [fl i h]; simpl.
    destruct (String.eqb (username fl) ""); simpl;
      destruct (String.eqb (password_ fl) ""); simpl; close_acquire.
  - unfold acquire, uid, serviceToken. rewrite Hm. run.
    destruct f as [fl i h]; simpl in *.
    destruct (String.eqb (username fl) ""); simpl;
      match goal with
      | |- context [jwt_SignedString env ?j ?k] =>
          specialize (Hreach j); destruct (jwt_SignedString env j k)
      end; try discriminate; simpl; close_acquire.
  - destruct (resolveURL env (StartFlowURL (Config provider))) as [url|e] eqn:Hurl;
      [clear Hreach | discriminate].
    destruct (Nat.eq_dec attempt 1) as [->|Hn].
    + rewrite (acquire_browser_first _ _ _ _ _ _ Hm Hurl). cbv zeta.
      rewrite orb_true_r, <- app_assoc. eexists _, _, _. split; [reflexivity|].
      rewrite logins_app.
      by destruct (browserEvents_read env (trace f) url) as (_ & _ & ->).
    + rewrite (acquire_browser_next _ _ _ _ _ _ Hm Hn).
      rewrite orb_true_r. by eexists _, _, _.
  - unfold acquire. rewrite Hm. run. destruct f as [fl i h]; simpl.
    close_acquire.
Qed.

(** ** The attempt loop *)

(** One turn of the loop whose credentials were acquired. *)
Lemma triggerLoop_step (env : Env) (provider : Provider) (attempt : nat)
    (ep ep' : string) (c c' : Credentials) (f f1 : Flow) :
  acquire env provider attempt ep c f = (Ok (ep', c'), f1) ->
  triggerLoop env provider attempt ep c f
  = if succeeded (client_Login env (trace f1) ep' c')
       || negb (interactive f1) || bool_decide (3 <= attempt)
    then (of_reply (client_Login env (trace f1) ep' c'), after f1 [EvLogin ep' c'])
    else triggerLoop env provider (S attempt) ep' c' (after f1 [EvLogin ep' c']).
Proof.
  intros Hacq. rewrite triggerLoop_equation_1, Hacq. unfold login, ask, after.
  simpl.
  destruct (succeeded _ || negb (interactive f1)); simpl; [done|].
  by destruct (decide (3 <= attempt)) as [H|H];
    [rewrite (bool_decide_eq_true_2 _ H) | rewrite (bool_decide_eq_false_2 _ H)].
Qed.

(** One turn of the loop that ends before its submission. *)
Lemma triggerLoop_abort (env : Env) (provider : Provider) (attempt : nat)
    (ep : string) (c : Credentials) (f f1 : Flow) (e : error) :
  acquire env provider attempt ep c f = (Err e, f1) ->
  triggerLoop env provider attempt ep c f = (Err e, f1).
Proof. intros Hacq. by rewrite triggerLoop_equation_1, Hacq. Qed.

Lemma rejecting_Failure (env : Env) (h : list Event) (ep : string)
    (c : Credentials) :
  rejecting env -> exists e, client_Login env h ep c = Failure e.
Proof.
  intros Hrej. specialize (Hrej h ep c).
  destruct (client_Login env h ep c) as [tok|e]; [discriminate|]. by exists e.
Qed.

(** Against a rejecting endpoint, an interactive flow that is at
    attempt [3 - k] submits [k + 1] more times and returns the last
    rejection. *)
Lemma rejected_until_third (env : Env) (provider : Provider) :
  rejecting env ->
  forall (k attempt : nat) (ep : string) (c : Credentials) (f : Flow),
    attempt + k = 3 ->
    reaches_login env (flags f) provider ->
    interactive f || prompts (flags f) provider = true ->
    exists e h ep' c',
      triggerLoop env provider attempt ep c f
      = (Err e, mkFlow (flags f) true (h ++ [EvLogin ep' c']))
      /\ client_Login env h ep' c' = Failure e
      /\ length (logins (h ++ [EvLogin ep' c'])) = length (logins (trace f)) + S k.
Proof.
  intros Hrej k.
  induction k as [|k IH]; intros attempt ep c f Hk Hreach Hint;
    destruct (acquire_reaches env provider attempt ep c f Hreach)
      as (ep' & c' & evs & Hacq & Hevs);
    rewrite Hint in Hacq; rewrite (triggerLoop_step _ _ _ _ _ _ _ _ _ Hacq);
    simpl trace; simpl interactive; simpl negb;
    destruct (rejecting_Failure env (trace f ++ evs) ep' c' Hrej) as [e He];
    rewrite He; simpl succeeded; simpl of_reply; simpl orb.
  - rewrite bool_decide_eq_true_2 by lia.
    exists e, (trace f ++ evs), ep', c'. repeat split; [done|].
    rewrite !logins_app, Hevs, !length_app. simpl. lia.
  - rewrite bool_decide_eq_false_2 by lia.
    destruct (IH (S attempt) ep' c'
                (after (mkFlow (flags f) true (trace f ++ evs)) [EvLogin ep' c']))
      as (e' & h & ep'' & c'' & Hloop & Hlast & Hcount);
      [lia | exact Hreach | reflexivity |].
    exists e', h, ep'', c''. rewrite Hloop. repeat split; [done|].
    rewrite Hcount. simpl trace. rewrite !logins_app, Hevs, !length_app.
    simpl. lia.
Qed.

(** C3. An interactive flow (the flag is set already, or the first
    acquisition prompts for a value) against an endpoint that rejects
    every submission, with no attempt cut short before its submission:
    exactly three submissions are made, the last event is the third one,
    and its rejection is what the flow returns. *)
Theorem interactive_rejected_three_attempts (env : Env) (provider : Provider)
    (f : Flow) :
  rejecting env ->
  reaches_login env (flags f) provider ->
  interactive f || prompts (flags f) provider = true ->
  exists e h ep c,
    triggerMethod env provider f
    = (Err e, mkFlow (flags f) true (h ++ [EvLogin ep c]))
    /\ client_Login env h ep c = Failure e
    /\ length (logins (h ++ [EvLogin ep c])) = length (logins (trace f)) + 3.
Proof.
  intros Hrej Hreach Hint. unfold triggerMethod.
  exact (rejected_until_third env provider Hrej 2 1 "" _ f eq_refl Hreach Hint).
Qed.

Lemma interactive_rejected_three_attempts_witness :
  rejecting Scenario.cluster
  /\ reaches_login Scenario.cluster (flags Scenario.noFlags) Scenario.p1
  /\ interactive Scenario.noFlags
     || prompts (flags Scenario.noFlags) Scenario.p1 = true
  /\ exists e h ep c,
       triggerMethod Scenario.cluster Scenario.p1 Scenario.noFlags
       = (Err e, mkFlow (flags Scenario.noFlags) true (h ++ [EvLogin ep c]))
       /\ client_Login Scenario.cluster h ep c = Failure e
       /\ length (logins (h ++ [EvLogin ep c]))
          = length (logins (trace Scenario.noFlags)) + 3.
Proof.
  assert (Hrej : rejecting Scenario.cluster) by (intros h ep c; reflexivity).
  assert (Hreach : reaches_login Scenario.cluster (flags Scenario.noFlags)
                     Scenario.p1) by exact I.
  assert (Hint : interactive Scenario.noFlags
                 || prompts (flags Scenario.noFlags) Scenario.p1 = true)
    by reflexivity.
  exact (conj Hrej (conj Hreach (conj Hint
           (interactive_rejected_three_attempts Scenario.cluster Scenario.p1
              Scenario.noFlags Hrej Hreach Hint)))).
Defined.

(** A fully flag-driven attempt changes nothing before its submission. *)
Lemma acquire_flag_driven (env : Env) (provider : Provider) (attempt : nat)
    (ep : string) (c : Credentials) (f : Flow) :
  reaches_login env (flags f) provider ->
  prompts (flags f) provider = false ->
  exists ep' c', acquire env provider attempt ep c f = (Ok (ep', c'), f).
Proof.
  unfold reaches_login, prompts. intros Hreach Hflags.
  destruct (clientMethod provider) eqn:Hm; try discriminate.
  - apply orb_false_elim in Hflags as [Hu Hp].
    unfold acquire, uid, password. rewrite Hm. run. rewrite Hu. simpl.
    rewrite Hp. simpl. by eexists _, _.
  - apply orb_false_elim in Hflags as [Hu Hp].
    unfold acquire, uid, password. rewrite Hm. run. rewrite Hu. simpl.
    rewrite Hp. simpl. by eexists _, _.
  - unfold acquire, uid, serviceToken. rewrite Hm. run. rewrite Hflags. simpl.
    match goal with
    | |- context [jwt_SignedString env ?j ?k] =>
        specialize (Hreach j); destruct (jwt_SignedString env j k)
    end; [|discriminate]. simpl. by eexists _, _.
  - unfold acquire. rewrite Hm. run. by eexists _, _.
Qed.

(** C4. A fully flag-driven flow (the flag is not set and no value of
    the provider's method has to be prompted for) whose submission
    reaches a rejecting endpoint: the only event of the flow is one
    submission, and its rejection is returned at once. *)
Theorem flag_driven_rejected_one_attempt (env : Env) (provider : Provider)
    (f : Flow) :
  rejecting env ->
  reaches_login env (flags f) provider ->
  interactive f = false ->
  prompts (flags f) provider = false ->
  exists e ep c,
    triggerMethod env provider f = (Err e, after f [EvLogin ep c])
    /\ client_Login env (trace f) ep c = Failure e
    /\ length (logins (trace (after f [EvLogin ep c])))
       = length (logins (trace f)) + 1.
Proof.
  intros Hrej Hreach Hint Hflags. unfold triggerMethod.
  destruct (acquire_flag_driven env provider 1 "" (mkCredentials "" "" "") f
              Hreach Hflags) as (ep & c & Hacq).
  rewrite (triggerLoop_step _ _ _ _ _ _ _ _ _ Hacq), Hint.
  destruct (rejecting_Failure env (trace f) ep c Hrej) as [e He].
  rewrite He. simpl. exists e, ep, c. repeat split; [done|].
  rewrite logins_app, length_app. reflexivity.
Qed.

Lemma flag_driven_rejected_one_attempt_witness :
  rejecting Scenario.cluster
  /\ reaches_login Scenario.cluster (flags Scenario.withCredentials) Scenario.p1
  /\ interactive Scenario.withCredentials = false
  /\ prompts (flags Scenario.withCredentials) Scenario.p1 = false
  /\ exists e ep c,
       triggerMethod Scenario.cluster Scenario.p1 Scenario.withCredentials
       = (Err e, after Scenario.withCredentials [EvLogin ep c])
       /\ client_Login Scenario.cluster (trace Scenario.withCredentials) ep c
          = Failure e
       /\ length (logins (trace (after Scenario.withCredentials [EvLogin ep c])))
          = length (logins (trace Scenario.withCredentials)) + 1.
Proof.
  assert (Hrej : rejecting Scenario.cluster) by (intros h ep c; reflexivity).
  assert (Hreach : reaches_login Scenario.cluster
                     (flags Scenario.withCredentials) Scenario.p1) by exact I.
  assert (Hint : interactive Scenario.withCredentials = false) by reflexivity.
  assert (Hflags : prompts (flags Scenario.withCredentials) Scenario.p1 = false)
    by reflexivity.
  exact (conj Hrej (conj Hreach (conj Hint (conj Hflags
           (flag_driven_rejected_one_attempt Scenario.cluster Scenario.p1
              Scenario.withCredentials Hrej Hreach Hint Hflags))))).
Defined.

(** ** Browser-token flows *)

(** From the second attempt on, a browser-token flow only prompts and
    submits: at attempt [3 - k] at most [k + 1] more times. *)
Lemma token_attempts_next (env : Env) (provider : Provider) :
  clientMethod provider = methodBrowserToken ->
  forall (k attempt : nat) (c : Credentials) (f : Flow),
    attempt + k = 3 ->
    2 <= attempt ->
    exists cs,
      1 <= length cs <= S k
      /\ trace (snd (triggerLoop env provider attempt "" c f))
         = trace f ++ tokenAttempts cs.
Proof.
  intros Hm k.
  induction k as [|k IH]; intros attempt c f Hk Hn;
    (assert (Hn1 : attempt <> 1) by lia);
    rewrite (triggerLoop_step _ _ _ _ _ _ _ _ _
               (acquire_browser_next env provider attempt "" c f Hm Hn1));
    simpl trace; simpl interactive; simpl negb; rewrite orb_false_r;
    set (c1 := mkCredentials _ _ _).
  - rewrite bool_decide_eq_true_2 by lia. rewrite orb_true_r.
    exists [c1]. split; [simpl; lia|]. simpl. by rewrite <- app_assoc.
  - rewrite bool_decide_eq_false_2 by lia. rewrite orb_false_r.
    destruct (succeeded _).
    + exists [c1]. split; [simpl; lia|]. simpl. by rewrite <- app_assoc.
    + match goal with
      | |- context [triggerLoop env provider (S attempt) "" c1 ?f2] =>
          destruct (IH (S attempt) c1 f2) as (cs & Hlen & Htrace); [lia|lia|]
      end.
      exists (c1 :: cs). split; [simpl; lia|].
      rewrite Htrace. simpl. by rewrite <- !app_assoc.
Qed.

(** The events of a browser-token flow whose start-flow URL resolves. *)
Lemma browser_flow_trace (env : Env) (provider : Provider) (url : string)
    (f : Flow) :
  clientMethod provider = methodBrowserToken ->
  resolveURL env (StartFlowURL (Config provider)) = Success url ->
  exists cs,
    1 <= length cs <= 3
    /\ trace (snd (triggerMethod env provider f))
       = trace f ++ browserEvents env (trace f) url ++ tokenAttempts cs.
Proof.
  intros Hm Hurl. unfold triggerMethod.
  rewrite (triggerLoop_step _ _ _ _ _ _ _ _ _
             (acquire_browser_first env provider url "" _ f Hm Hurl)).
  simpl trace; simpl interactive; simpl negb.
  rewrite !orb_false_r.
  set (c1 := mkCredentials _ _ _).
  destruct (succeeded _).
  - exists [c1]. split; [simpl; lia|].
    cbn [snd after trace]. rewrite <- !app_assoc. reflexivity.
  - match goal with
    | |- context [triggerLoop env provider 2 "" c1 ?f2] =>
        destruct (token_attempts_next env provider Hm 1 2 c1 f2)
          as (cs & Hlen & Htrace); [lia|lia|]
    end.
    exists (c1 :: cs). split; [simpl; lia|].
    rewrite Htrace. cbn [after trace]. rewrite <- !app_assoc. reflexivity.
Qed.

Lemma tokenAttempts_read (cs : list Credentials) :
  opens (tokenAttempts cs) = []
  /\ logins (tokenAttempts cs) = map (pair "") cs
  /\ errouts (tokenAttempts cs) = [].
Proof.
  induction cs as [|c cs (IHo & IHl & IHe)]; [done|].
  change (tokenAttempts (c :: cs))
    with ([EvInput "Enter token from the browser: "; EvLogin "" c]
            ++ tokenAttempts cs).
  by rewrite opens_app, logins_app, errouts_app, IHo, IHl, IHe.
Qed.

(** C8. A browser-token flow whose start-flow URL resolves: its events
    are those of one run of [openBrowser], which opens the browser once
    at the resolved URL, followed by one to three attempts that consist
    of a token prompt and a submission each and never open the browser.
    So the browser is opened in attempt 1, before the first prompt, and
    in no later attempt, and every attempt prompts for the token. *)
Theorem browser_opened_on_first_attempt_only (env : Env) (provider : Provider)
    (url : string) (f : Flow) :
  clientMethod provider = methodBrowserToken ->
  resolveURL env (StartFlowURL (Config provider)) = Success url ->
  exists cs,
    1 <= length cs <= 3
    /\ trace (snd (triggerMethod env provider f))
       = trace f ++ browserEvents env (trace f) url ++ tokenAttempts cs
    /\ opens (browserEvents env (trace f) url) = [url]
    /\ opens (tokenAttempts cs) = []
    /\ opens (trace (snd (triggerMethod env provider f)))
       = opens (trace f) ++ [url].
Proof.
  intros Hm Hurl.
  destruct (browser_flow_trace env provider url f Hm Hurl) as (cs & Hlen & Htrace).
  destruct (browserEvents_read env (trace f) url) as (Hopen & _ & _).
  destruct (tokenAttempts_read cs) as (Hnone & _ & _).
  exists cs. repeat split; try done; try lia.
  by rewrite Htrace, !opens_app, Hopen, Hnone, app_nil_r.
Qed.

Lemma browser_opened_on_first_attempt_only_witness :
  exists cs,
    1 <= length cs <= 3
    /\ trace (snd (triggerMethod Scenario.cluster Scenario.p2 Scenario.noFlags))
       = trace Scenario.noFlags
         ++ browserEvents Scenario.cluster (trace Scenario.noFlags)
              "https://cluster.example/login?redirect=cli"
         ++ tokenAttempts cs
    /\ opens (browserEvents Scenario.cluster (trace Scenario.noFlags)
                "https://cluster.example/login?redirect=cli")
       = ["https://cluster.example/login?redirect=cli"]
    /\ opens (tokenAttempts cs) = []
    /\ opens (trace (snd (triggerMethod Scenario.cluster Scenario.p2
                            Scenario.noFlags)))
       = opens (trace Scenario.noFlags)
         ++ ["https://cluster.example/login?redirect=cli"].
Proof.
  assert (Hm : clientMethod Scenario.p2 = methodBrowserToken) by reflexivity.
  assert (Hurl : resolveURL Scenario.cluster (StartFlowURL (Config Scenario.p2))
                 = Success "https://cluster.example/login?redirect=cli")
    by reflexivity.
  exact (browser_opened_on_first_attempt_only Scenario.cluster Scenario.p2 _
           Scenario.noFlags Hm Hurl).
Defined.

(** C2, as the code has it.  Once the start-flow URL of a browser-token
    flow is resolved, a failure of the opener does not end the flow:
    [openBrowser] returns no error, the opener's error (if any) is
    logged, the fallback message with the resolved URL is written
    whether the opener failed or not, and the flow goes on to prompt
    for the token. *)
Theorem opener_failure_is_not_fatal (env : Env) (provider : Provider)
    (url : string) (f : Flow) :
  clientMethod provider = methodBrowserToken ->
  resolveURL env (StartFlowURL (Config provider)) = Success url ->
  let logged := match opener_Open env (trace f) url with
                | Some err => [EvLogError err]
                | None => []
                end in
  openBrowser env (StartFlowURL (Config provider)) f
  = (Ok tt, after f (EvOpen url :: logged ++ [EvErrout (fallbackMessage url)]))
  /\ exists rest,
       trace (snd (triggerMethod env provider f))
       = trace f ++ EvOpen url :: logged
           ++ EvErrout (fallbackMessage url)
           :: EvInput "Enter token from the browser: " :: rest.
Proof.
  intros Hm Hurl logged. split.
  - exact (openBrowser_resolved env _ url f Hurl).
  - destruct (browser_flow_trace env provider url f Hm Hurl)
      as ([|c cs] & Hlen & Htrace); [simpl in Hlen; lia|].
    exists (EvLogin "" c :: tokenAttempts cs). rewrite Htrace.
    unfold browserEvents. fold logged. simpl. by rewrite <- app_assoc.
Qed.

Lemma opener_failure_is_not_fatal_witness :
  opener_Open Scenario.cluster (trace Scenario.noFlags)
    "https://cluster.example/login?redirect=cli"
  = Some "exec: xdg-open not found"
  /\ openBrowser Scenario.cluster (StartFlowURL (Config Scenario.p2)) Scenario.noFlags
     = (Ok tt,
        after Scenario.noFlags
          [EvOpen "https://cluster.example/login?redirect=cli";
           EvLogError "exec: xdg-open not found";
           EvErrout (fallbackMessage "https://cluster.example/login?redirect=cli")])
  /\ exists rest,
       trace (snd (triggerMethod Scenario.cluster Scenario.p2 Scenario.noFlags))
       = trace Scenario.noFlags
         ++ EvOpen "https://cluster.example/login?redirect=cli"
         :: [EvLogError "exec: xdg-open not found"]
         ++ EvErrout (fallbackMessage "https://cluster.example/login?redirect=cli")
         :: EvInput "Enter token from the browser: " :: rest.
Proof.
  assert (Hm : clientMethod Scenario.p2 = methodBrowserToken) by reflexivity.
  assert (Hurl : resolveURL Scenario.cluster (StartFlowURL (Config Scenario.p2))
                 = Success "https://cluster.example/login?redirect=cli")
    by reflexivity.
  split; [reflexivity|].
  exact (opener_failure_is_not_fatal Scenario.cluster Scenario.p2 _
           Scenario.noFlags Hm Hurl).
Defined.

(** C2, as the spec has it, fails: a browser-token flow whose transport
    cannot build the request for the root-relative start-flow URL ends
    with that error before the first prompt, and nothing is written to
    the error stream. *)
Lemma fallback_always_printed_counterexample :
  clientMethod Scenario.p2 = methodBrowserToken
  /\ triggerMethod Scenario.broken Scenario.p2 Scenario.noFlags
     = (Err "parse: invalid URL escape", Scenario.noFlags)
  /\ errouts (trace (snd (triggerMethod Scenario.broken Scenario.p2
                            Scenario.noFlags))) = [].
Proof. vm_compute. repeat split. Qed.

(** C10. In a browser-token flow every acquisition that reaches the
    submission has set the interactivity flag, whatever the flags were;
    so against a rejecting endpoint the flow whose start-flow URL
    resolves submits exactly three times and returns the third
    rejection. *)
Theorem browser_flow_always_retries (env : Env) (provider : Provider) (f : Flow) :
  clientMethod provider = methodBrowserToken ->
  (forall attempt ep c f0 x f1,
      acquire env provider attempt ep c f0 = (Ok x, f1) -> interactive f1 = true)
  /\ (rejecting env ->
      succeeded (resolveURL env (StartFlowURL (Config provider))) = true ->
      exists e h ep c,
        triggerMethod env provider f
        = (Err e, mkFlow (flags f) true (h ++ [EvLogin ep c]))
        /\ client_Login env h ep c = Failure e
        /\ length (logins (h ++ [EvLogin ep c]))
           = length (logins (trace f)) + 3).
Proof.
  intros Hm. split.
  - intros attempt ep c f0 x f1 Hacq.
    destruct (Nat.eq_dec attempt 1) as [->|Hn].
    + destruct (resolveURL env (StartFlowURL (Config provider))) as [url|e] eqn:Hurl.
      * rewrite (acquire_browser_first _ _ _ _ _ _ Hm Hurl) in Hacq.
        by inversion Hacq.
      * by rewrite (acquire_browser_unresolved _ _ _ _ _ _ Hm Hurl) in Hacq.
    + rewrite (acquire_browser_next _ _ _ _ _ _ Hm Hn) in Hacq. by inversion Hacq.
  - intros Hrej Hurl. unfold triggerMethod.
    apply (rejected_until_third env provider Hrej 2 1 "" _ f eq_refl).
    + unfold reaches_login. by rewrite Hm.
    + unfold prompts. rewrite Hm. apply orb_true_r.
Qed.

Lemma browser_flow_always_retries_witness :
  interactive Scenario.noFlags = false
  /\ (forall attempt ep c f0 x f1,
         acquire Scenario.cluster Scenario.p2 attempt ep c f0 = (Ok x, f1) ->
         interactive f1 = true)
  /\ exists e h ep c,
       triggerMethod Scenario.cluster Scenario.p2 Scenario.noFlags
       = (Err e, mkFlow (flags Scenario.noFlags) true (h ++ [EvLogin ep c]))
       /\ client_Login Scenario.cluster h ep c = Failure e
       /\ length (logins (h ++ [EvLogin ep c]))
          = length (logins (trace Scenario.noFlags)) + 3.
Proof.
  assert (Hm : clientMethod Scenario.p2 = methodBrowserToken) by reflexivity.
  assert (Hrej : rejecting Scenario.cluster) by (intros h ep c; reflexivity).
  assert (Hurl : succeeded (resolveURL Scenario.cluster
                              (StartFlowURL (Config Scenario.p2))) = true)
    by reflexivity.
  destruct (browser_flow_always_retries Scenario.cluster Scenario.p2
              Scenario.noFlags Hm) as [Hflag Hthree].
  exact (conj eq_refl (conj Hflag (Hthree Hrej Hurl))).
Defined.

(** A browser-token flow whose start-flow URL does not resolve ends in
    its first attempt, before any event. *)
Lemma browser_flow_unresolved (env : Env) (provider : Provider) (e : error)
    (f : Flow) :
  clientMethod provider = methodBrowserToken ->
  resolveURL env (StartFlowURL (Config provider)) = Failure e ->
  triggerMethod env provider f = (Err e, f).
Proof.
  intros Hm Hurl. unfold triggerMethod.
  exact (triggerLoop_abort _ _ _ _ _ _ _ _
           (acquire_browser_unresolved env provider e "" _ f Hm Hurl)).
Qed.

(** ** Service tokens *)

Lemma expiry_five_minutes (now : Time) :
  time_Unix (time_Add now (5 * Minute)%Z) = (time_Unix now + 300)%Z.
Proof.
  unfold time_Unix, time_Add, Minute.
  replace (5 * (60 * Second))%Z with (300 * Second)%Z by lia.
  apply Z.div_add. unfold Second. lia.
Qed.

(** C6. The service token is what the signer makes, with the private key
    of the flags, of a JWT whose method is RS256 and whose claims are
    the UID under "uid" and, under "exp", the Unix time of the clock
    reading plus 300 seconds, and nothing else. *)
Theorem serviceToken_claims (env : Env) (uid : string) (f : Flow) :
  let now := time_Now env (trace f) in
  let jwt := mkJWT "RS256" {[ "uid" := ClaimString uid;
                              "exp" := ClaimInt (time_Unix now + 300)%Z ]} in
  serviceToken env uid f
  = (of_reply (jwt_SignedString env jwt (privateKey (flags f))), f)
  /\ jwt_claims jwt !! "uid" = Some (ClaimString uid)
  /\ jwt_claims jwt !! "exp" = Some (ClaimInt (time_Unix now + 300)%Z)
  /\ dom (jwt_claims jwt) = {[ "uid"; "exp" ]}.
Proof.
  cbv zeta. split; [|split; [|split]].
  - unfold serviceToken, serviceClaims. run.
    by rewrite expiry_five_minutes.
  - simpl. by rewrite lookup_insert_eq.
  - simpl. rewrite lookup_insert_ne by done. by rewrite lookup_singleton_eq.
  - simpl. rewrite dom_insert_L, dom_singleton_L. done.
Qed.

(** ** The whole flow *)

(** C7. When the resolved flags carry no provider ID and are compatible
    with no provider of the fetched catalog, selection fails with the
    error that no provider could be determined, [Start] returns that
    error, and the flow submits nothing to a login endpoint: after the
    catalog fetch it only reports the excluded providers. *)
Theorem no_compatible_provider (env : Env) (fl resolved : Flags)
    (providers : Providers) (f : Flow) :
  flags_Resolve env fl = Success resolved ->
  providerID resolved = "" ->
  client_Providers env (trace f) = Success providers ->
  (forall id provider,
      providers !! id = Some provider ->
      flags_Supports env resolved provider = false) ->
  fst (selectProvider env providers
         (mkFlow resolved (interactive f) (trace f ++ [EvProviders])))
  = Err "couldn't determine a login provider"
  /\ Start env fl f
     = (Err "couldn't determine a login provider",
        mkFlow resolved (interactive f)
               (trace f ++ EvProviders :: exclusions env resolved (Slice providers)))
  /\ logins (trace (snd (Start env fl f))) = logins (trace f).
Proof.
  intros Hres Hid Hcat Hnone.
  assert (Hsel : forall f0, flags f0 = resolved ->
            selectProvider env providers f0
            = (Err "couldn't determine a login provider",
               after f0 (exclusions env resolved (Slice providers)))).
  { intros f0 Hf0. rewrite selectProvider_filtered by (by rewrite Hf0).
    unfold compatible. rewrite Hf0, filter_none; [done|].
    intros provider Hin. apply Slice_elem in Hin as [id Hin]. eauto. }
  assert (Hstart : Start env fl f
            = (Err "couldn't determine a login provider",
               mkFlow resolved (interactive f)
                 (trace f ++ EvProviders :: exclusions env resolved (Slice providers)))).
  { unfold Start. rewrite bind_run. unfold lift at 1. rewrite Hres.
    simpl of_reply. cbv iota. run. rewrite Hcat. simpl.
    rewrite Hsel by done. unfold after. simpl. by rewrite <- app_assoc. }
  split; [by rewrite Hsel|]. split; [done|].
  rewrite Hstart. simpl. rewrite logins_app. simpl.
  destruct (exclusions_quiet env resolved (Slice providers)) as (Hq & _).
  change (logins (EvProviders :: ?l)) with (logins l).
  by rewrite Hq, app_nil_r.
Qed.

Lemma no_compatible_provider_witness :
  fst (selectProvider Scenario.picky Scenario.catalog
         (mkFlow (mkFlags "" "alice" "secret" "") false [EvProviders]))
  = Err "couldn't determine a login provider"
  /\ Start Scenario.picky (mkFlags "" "alice" "secret" "") Scenario.noFlags
     = (Err "couldn't determine a login provider",
        mkFlow (mkFlags "" "alice" "secret" "") false
               (EvProviders
                  :: exclusions Scenario.picky (mkFlags "" "alice" "secret" "")
                       (Slice Scenario.catalog)))
  /\ logins (trace (snd (Start Scenario.picky (mkFlags "" "alice" "secret" "")
                           Scenario.noFlags))) = [].
Proof.
  assert (Hres : flags_Resolve Scenario.picky (mkFlags "" "alice" "secret" "")
                 = Success (mkFlags "" "alice" "secret" "")) by reflexivity.
  assert (Hid : providerID (mkFlags "" "alice" "secret" "") = "") by reflexivity.
  assert (Hcat : client_Providers Scenario.picky (trace Scenario.noFlags)
                 = Success Scenario.catalog) by reflexivity.
  assert (Hnone : forall id provider,
             Scenario.catalog !! id = Some provider ->
             flags_Supports Scenario.picky (mkFlags "" "alice" "secret" "") provider
             = false) by reflexivity.
  exact (no_compatible_provider Scenario.picky _ _ Scenario.catalog
           Scenario.noFlags Hres Hid Hcat Hnone).
Defined.

(** ** Worked scenarios *)

(** A token issued at 1700000000.123456789 expires at 1700000300. *)
Example serviceToken_expiry_example :
  serviceClaims "svc" 1700000000123456789%Z !! "exp"
  = Some (ClaimInt 1700000300%Z).
Proof. vm_compute. reflexivity. Qed.

(** No flags, two providers: the user picks the credential provider, is
    asked for name and password three times, and the third rejection is
    returned. *)
Example prompted_flow_example :
  fst (Start Scenario.cluster (mkFlags "" "" "" "") Scenario.noFlags)
  = Err "rejected after 11 events"
  /\ length (logins (trace (snd (Start Scenario.cluster (mkFlags "" "" "" "")
                                   Scenario.noFlags)))) = 3
  /\ selects (trace (snd (Start Scenario.cluster (mkFlags "" "" "" "")
                            Scenario.noFlags)))
     = [[Scenario.p1; Scenario.p2]].
Proof. vm_compute. repeat split. Qed.

(** Name and password given as flags: the provider is still picked by
    hand, and the first rejection ends the flow. *)
Example flag_flow_example :
  Start Scenario.cluster (mkFlags "" "alice" "secret" "") Scenario.noFlags
  = (Err "rejected after 3 events",
     mkFlow (mkFlags "" "alice" "secret" "") false
       [EvProviders;
        EvSelect "Please select a login method:" [Scenario.p1; Scenario.p2];
        EvLogInfo "Using login provider 'Credential provider'.";
        EvLogin "/acs/api/v1/auth/login" (mkCredentials "alice" "secret" "")]).
Proof. vm_compute. reflexivity. Qed.

(** A provider ID that the catalog lacks: no login is submitted. *)
Example unknown_provider_example :
  Start Scenario.cluster (mkFlags "missing" "" "" "") Scenario.noFlags
  = (Err "unknown login provider ID 'missing'",
     mkFlow (mkFlags "missing" "" "" "") false [EvProviders]).
Proof. vm_compute. reflexivity. Qed.

(** * Further properties of the flow *)

Lemma selects_app (l l' : list Event) : selects (l ++ l') = selects l ++ selects l'.
Proof. apply omap_app. Qed.

Lemma fetches_app (l l' : list Event) : fetches (l ++ l') = fetches l ++ fetches l'.
Proof. apply omap_app. Qed.

Lemma eqb_empty_false (s : string) : s <> "" -> String.eqb s "" = false.
Proof. intros Hs. by apply String.eqb_neq. Qed.

(** ** What an acquisition may do *)

(** The flags stay, the flag is never reset, and the only events are
    prompts and those of the browser. *)
Lemma acquire_frame (env : Env) (provider : Provider) (attempt : nat)
    (ep : string) (c : Credentials) (f : Flow) :
  exists evs,
    flags (snd (acquire env provider attempt ep c f)) = flags f
    /\ trace (snd (acquire env provider attempt ep c f)) = trace f ++ evs
    /\ (interactive f = true ->
        interactive (snd (acquire env provider attempt ep c f)) = true)
    /\ logins evs = [] /\ selects evs = [] /\ fetches evs = []
    /\ (forall msg, fst (acquire env provider attempt ep c f) <> Panic msg).
Proof.
  destruct (clientMethod provider) eqn:Hm.
  - unfold acquire, uid, password. rewrite Hm. run.
    destruct f as [fl i h]; simpl.
    destruct (String.eqb (username fl) ""); simpl;
      destruct (String.eqb (password_ fl) ""); simpl;
      rewrite <- ?app_assoc;
      first [ by eexists; repeat split | by exists []; rewrite app_nil_r ].
  - unfold acquire, uid, password. rewrite Hm. run.
    destruct f as [fl i h]; simpl.
    destruct (String.eqb (username fl) ""); simpl;
      destruct (String.eqb (password_ fl) ""); simpl;
      rewrite <- ?app_assoc;
      first [ by eexists; repeat split | by exists []; rewrite app_nil_r ].
  - unfold acquire, uid, serviceToken. rewrite Hm. run.
    destruct f as [fl i h]; simpl.
    destruct (String.eqb (username fl) ""); simpl;
      match goal with
      | |- context [jwt_SignedString env ?j ?k] =>
          destruct (jwt_SignedString env j k)
      end; simpl; rewrite <- ?app_assoc;
      first [ by eexists; repeat split | by exists []; rewrite app_nil_r ].
  - destruct (Nat.eq_dec attempt 1) as [->|Hn].
    + destruct (resolveURL env (StartFlowURL (Config provider))) as [url|e] eqn:Hurl.
      * rewrite (acquire_browser_first _ _ _ _ _ _ Hm Hurl). cbv zeta.
        simpl fst; simpl snd; simpl flags; simpl trace; simpl interactive.
        rewrite <- app_assoc. eexists. repeat split; try done.
        -- rewrite logins_app.
           by destruct (browserEvents_read env (trace f) url) as (_ & _ & ->).
        -- unfold browserEvents. by destruct (opener_Open env (trace f) url).
        -- unfold browserEvents. by destruct (opener_Open env (trace f) url).
      * rewrite (acquire_browser_unresolved _ _ _ _ _ _ Hm Hurl).
        exists []. by rewrite app_nil_r.
    + rewrite (acquire_browser_next _ _ _ _ _ _ Hm Hn). by eexists.
  - unfold acquire. rewrite Hm. run. exists []. by rewrite app_nil_r.
Qed.

(** ** What the attempt loop may do *)

Lemma of_reply_Ok {A} (r : reply A) (a : A) : of_reply r = Ok a -> r = Success a.
Proof. destruct r; simpl; congruence. Qed.

Lemma of_reply_not_Panic {A} (r : reply A) (msg : string) : of_reply r <> Panic msg.
Proof. by destruct r. Qed.

(** The loop at attempt [3 - k]: the flags stay, the flag is never
    reset, at most [k + 1] submissions are made and a second one only by
    an interactive flow, no provider is fetched or selected, and a token
    that is returned is the answer to the last event, a submission. *)
Lemma triggerLoop_frame (env : Env) (provider : Provider) :
  forall (k attempt : nat) (ep : string) (c : Credentials) (f : Flow),
    attempt + k = 3 ->
    exists evs,
      flags (snd (triggerLoop env provider attempt ep c f)) = flags f
      /\ trace (snd (triggerLoop env provider attempt ep c f)) = trace f ++ evs
      /\ (interactive f = true ->
          interactive (snd (triggerLoop env provider attempt ep c f)) = true)
      /\ length (logins evs) <= S k
      /\ (2 <= length (logins evs) ->
          interactive (snd (triggerLoop env provider attempt ep c f)) = true)
      /\ selects evs = [] /\ fetches evs = []
      /\ (forall tok,
            fst (triggerLoop env provider attempt ep c f) = Ok tok ->
            exists h ep' c',
              trace (snd (triggerLoop env provider attempt ep c f))
              = h ++ [EvLogin ep' c']
              /\ client_Login env h ep' c' = Success tok)
      /\ (forall msg, fst (triggerLoop env provider attempt ep c f) <> Panic msg).
Proof.
  intros k. induction k as [|k IH]; intros attempt ep c f Hk;
    destruct (acquire_frame env provider attempt ep c f)
      as (evs & Hfl & Htr & Hmono & Hlog & Hsel & Hfet & Hpanic);
    destruct (acquire env provider attempt ep c f) as [[[ep' c']|e|msg] f1] eqn:Hacq;
    simpl in Hfl, Htr, Hmono, Hpanic;
    try (by exfalso; apply (Hpanic msg));
    try (rewrite (triggerLoop_abort _ _ _ _ _ _ _ _ Hacq);
         exists evs; simpl; rewrite Hlog; simpl;
         repeat split; try done; try lia).
  - rewrite (triggerLoop_step _ _ _ _ _ _ _ _ _ Hacq).
    rewrite (bool_decide_eq_true_2 (3 <= attempt)) by lia. rewrite orb_true_r.
    exists (evs ++ [EvLogin ep' c']). simpl.
    rewrite Htr, app_assoc, logins_app, selects_app, fetches_app, Hlog, Hsel, Hfet.
    simpl. repeat split; try done; try lia.
    + intros tok Htok. apply of_reply_Ok in Htok. by exists (trace f ++ evs), ep', c'.
    + intros msg. apply of_reply_not_Panic.
  - rewrite (triggerLoop_step _ _ _ _ _ _ _ _ _ Hacq).
    destruct (succeeded _ || negb (interactive f1) || bool_decide (3 <= attempt))
      eqn:Hexit.
    + exists (evs ++ [EvLogin ep' c']). simpl.
      rewrite Htr, app_assoc, logins_app, selects_app, fetches_app, Hlog, Hsel, Hfet.
      simpl. repeat split; try done; try lia.
      * intros tok Htok. apply of_reply_Ok in Htok.
        by exists (trace f ++ evs), ep', c'.
      * intros msg. apply of_reply_not_Panic.
    + apply orb_false_iff in Hexit as [Hexit Hbound].
      apply orb_false_iff in Hexit as [_ Hint].
      apply negb_false_iff in Hint.
      apply bool_decide_eq_false_1 in Hbound.
      destruct (IH (S attempt) ep' c' (after f1 [EvLogin ep' c']))
        as (evs2 & Hfl2 & Htr2 & Hmono2 & Hlen2 & _ & Hsel2 & Hfet2 & Htok2 & Hpanic2);
        [lia|].
      exists (evs ++ [EvLogin ep' c'] ++ evs2).
      rewrite Hfl2, Htr2. cbn [after trace flags interactive snd fst].
      rewrite Htr, <- !app_assoc.
      rewrite !logins_app, !selects_app, !fetches_app, Hlog, Hsel, Hfet, Hsel2, Hfet2.
      rewrite !length_app in *.
      simpl. repeat split; try done; try lia.
      * intros _. by apply Hmono2.
      * intros _. by apply Hmono2.
      * intros tok Htok. destruct (Htok2 tok Htok) as (h & ep2 & c2 & Hh & Hlast).
        exists h, ep2, c2. split; [|done]. rewrite <- Hh, Htr2.
        cbn [after trace]. by rewrite Htr, <- !app_assoc.
Qed.

(** X7. Whatever the collaborators answer, a flow submits credentials
    to the login endpoint at most three times. *)
Theorem at_most_three_submissions (env : Env) (provider : Provider) (f : Flow) :
  exists evs,
    trace (snd (triggerMethod env provider f)) = trace f ++ evs
    /\ length (logins evs) <= 3.
Proof.
  destruct (triggerLoop_frame env provider 2 1 "" (mkCredentials "" "" "") f eq_refl)
    as (evs & _ & Htr & _ & Hlen & _).
  by exists evs.
Qed.

(** X8. A token that the flow returns is the token the login endpoint
    answered to the last submission, and that submission is the last
    event of the flow. *)
Theorem returned_token_is_last_answer (env : Env) (provider : Provider)
    (f : Flow) (tok : string) :
  fst (triggerMethod env provider f) = Ok tok ->
  exists h ep c,
    trace (snd (triggerMethod env provider f)) = h ++ [EvLogin ep c]
    /\ client_Login env h ep c = Success tok.
Proof.
  destruct (triggerLoop_frame env provider 2 1 "" (mkCredentials "" "" "") f eq_refl)
    as (evs & _ & _ & _ & _ & _ & _ & _ & Htok & _).
  apply Htok.
Qed.

Lemma returned_token_is_last_answer_witness :
  fst (triggerMethod Cases.forgiving Scenario.p1 Scenario.noFlags) = Ok "acs-token"
  /\ exists h ep c,
       trace (snd (triggerMethod Cases.forgiving Scenario.p1 Scenario.noFlags))
       = h ++ [EvLogin ep c]
       /\ client_Login Cases.forgiving h ep c = Success "acs-token".
Proof.
  assert (Hok : fst (triggerMethod Cases.forgiving Scenario.p1 Scenario.noFlags)
                = Ok "acs-token") by (vm_compute; reflexivity).
  exact (conj Hok (returned_token_is_last_answer Cases.forgiving Scenario.p1
                     Scenario.noFlags "acs-token" Hok)).
Defined.

Lemma prompted_app (l l' : list Event) :
  prompted (l ++ l') = prompted l ++ prompted l'.
Proof. apply omap_app. Qed.

(** An acquisition that sets the flag has asked for a value. *)
Lemma acquire_prompts (env : Env) (provider : Provider) (attempt : nat)
    (ep : string) (c : Credentials) (f : Flow) (evs : list Event) :
  trace (snd (acquire env provider attempt ep c f)) = trace f ++ evs ->
  interactive f = false ->
  interactive (snd (acquire env provider attempt ep c f)) = true ->
  prompted evs <> [].
Proof.
  destruct (clientMethod provider) eqn:Hm.
  - unfold acquire, uid, password. rewrite Hm. run.
    destruct f as [fl i h]; simpl.
    destruct (String.eqb (username fl) ""); simpl;
      destruct (String.eqb (password_ fl) ""); simpl;
      rewrite <- ?app_assoc; intros Hevs Hoff Hon;
      try (apply app_inv_head in Hevs as <-; discriminate);
      congruence.
  - unfold acquire, uid, password. rewrite Hm. run.
    destruct f as [fl i h]; simpl.
    destruct (String.eqb (username fl) ""); simpl;
      destruct (String.eqb (password_ fl) ""); simpl;
      rewrite <- ?app_assoc; intros Hevs Hoff Hon;
      try (apply app_inv_head in Hevs as <-; discriminate);
      congruence.
  - unfold acquire, uid, serviceToken. rewrite Hm. run.
    destruct f as [fl i h]; simpl.
    destruct (String.eqb (username fl) ""); simpl;
      match goal with
      | |- context [jwt_SignedString env ?j ?k] =>
          destruct (jwt_SignedString env j k)
      end; simpl; intros Hevs Hoff Hon;
      try (apply app_inv_head in Hevs as <-; discriminate);
      congruence.
  - destruct (Nat.eq_dec attempt 1) as [->|Hn].
    + destruct (resolveURL env (StartFlowURL (Config provider))) as [url|e] eqn:Hurl.
      * rewrite (acquire_browser_first _ _ _ _ _ _ Hm Hurl). cbv zeta.
        cbn [snd trace interactive]. rewrite <- app_assoc.
        intros Hevs _ _. apply app_inv_head in Hevs as <-.
        rewrite prompted_app. by destruct (prompted (browserEvents _ _ _)).
      * rewrite (acquire_browser_unresolved _ _ _ _ _ _ Hm Hurl).
        cbn [snd]. congruence.
    + rewrite (acquire_browser_next _ _ _ _ _ _ Hm Hn). cbn [snd trace].
      intros Hevs _ _. by apply app_inv_head in Hevs as <-.
  - unfold acquire. rewrite Hm. run. congruence.
Qed.

(** X9. A flow that ends with the interactivity flag unset has
    submitted at most once.  And a flow that starts with the flag unset
    and submits a second time has asked for a value at a prompt before
    that. *)
Theorem non_interactive_submits_once (env : Env) (provider : Provider)
    (f : Flow) (evs : list Event) :
  trace (snd (triggerMethod env provider f)) = trace f ++ evs ->
  (interactive (snd (triggerMethod env provider f)) = false ->
   length (logins evs) <= 1)
  /\ (interactive f = false ->
      2 <= length (logins evs) ->
      exists pre ep c rest,
        evs = pre ++ EvLogin ep c :: rest
        /\ logins pre = [] /\ prompted pre <> []).
Proof.
  intros Hevs. split.
  - intros Hflag.
    destruct (triggerLoop_frame env provider 2 1 "" (mkCredentials "" "" "") f
                eq_refl) as (evs' & _ & Htr & _ & _ & Hretry & _).
    fold (triggerMethod env provider f) in Htr, Hretry.
    rewrite Htr in Hevs. apply app_inv_head in Hevs as <-.
    destruct (decide (2 <= length (logins evs'))) as [Hmany|]; [|lia].
    rewrite (Hretry Hmany) in Hflag. discriminate.
  - intros Hoff Hmany. unfold triggerMethod in Hevs.
    destruct (acquire_frame env provider 1 "" (mkCredentials "" "" "") f)
      as (pre & _ & Htr & _ & Hlog & _).
    pose proof (acquire_prompts env provider 1 "" (mkCredentials "" "" "") f pre
                  Htr Hoff) as Hasked.
    destruct (acquire env provider 1 "" (mkCredentials "" "" "") f)
      as [[[ep c]|e|msg] f1] eqn:Hacq; cbn [snd] in Htr, Hasked.
    + rewrite (triggerLoop_step _ _ _ _ _ _ _ _ _ Hacq) in Hevs.
      destruct (succeeded _ || negb (interactive f1) || bool_decide (3 <= 1))
        eqn:Hexit.
      * cbn [snd after trace] in Hevs. rewrite Htr, <- app_assoc in Hevs.
        apply app_inv_head in Hevs as <-.
        rewrite logins_app, Hlog in Hmany. simpl in Hmany. lia.
      * apply orb_false_iff in Hexit as [Hexit _].
        apply orb_false_iff in Hexit as [_ Hon].
        apply negb_false_iff in Hon.
        destruct (triggerLoop_frame env provider 1 2 ep c
                    (after f1 [EvLogin ep c]) eq_refl)
          as (rest & _ & Hrest & _).
        rewrite Hrest in Hevs. cbn [after trace] in Hevs.
        rewrite Htr, <- !app_assoc in Hevs. apply app_inv_head in Hevs as <-.
        exists pre, ep, c, rest. repeat split; [done|]. by apply Hasked.
    + rewrite (triggerLoop_abort _ _ _ _ _ _ _ _ Hacq) in Hevs.
      cbn [snd] in Hevs. rewrite Htr in Hevs. apply app_inv_head in Hevs as <-.
      rewrite Hlog in Hmany. simpl in Hmany. lia.
    + rewrite triggerLoop_equation_1, Hacq in Hevs.
      cbn [snd] in Hevs. rewrite Htr in Hevs. apply app_inv_head in Hevs as <-.
      rewrite Hlog in Hmany. simpl in Hmany. lia.
Qed.

Lemma non_interactive_submits_once_witness :
  length (logins [EvLogin "/acs/api/v1/auth/login"
                    (mkCredentials "alice" "secret" "")]) <= 1
  /\ exists pre ep c rest,
       [EvInput "Username: "; EvPassword "Password: ";
        EvLogin "/acs/api/v1/auth/login" (mkCredentials "alice" "secret" "");
        EvInput "Username: "; EvPassword "Password: ";
        EvLogin "/acs/api/v1/auth/login" (mkCredentials "alice" "secret" "")]
       = pre ++ EvLogin ep c :: rest
       /\ logins pre = [] /\ prompted pre <> [].
Proof.
  assert (Hone : trace (snd (triggerMethod Cases.forgiving Scenario.p1
                               Scenario.withCredentials))
                 = trace Scenario.withCredentials
                   ++ [EvLogin "/acs/api/v1/auth/login"
                         (mkCredentials "alice" "secret" "")])
    by (vm_compute; reflexivity).
  assert (Htwo : trace (snd (triggerMethod Cases.forgiving Scenario.p1
                               Scenario.noFlags))
                 = trace Scenario.noFlags
                   ++ [EvInput "Username: "; EvPassword "Password: ";
                       EvLogin "/acs/api/v1/auth/login"
                         (mkCredentials "alice" "secret" "");
                       EvInput "Username: "; EvPassword "Password: ";
                       EvLogin "/acs/api/v1/auth/login"
                         (mkCredentials "alice" "secret" "")])
    by (vm_compute; reflexivity).
  split.
  - apply (non_interactive_submits_once Cases.forgiving Scenario.p1
             Scenario.withCredentials _ Hone). vm_compute. reflexivity.
  - apply (non_interactive_submits_once Cases.forgiving Scenario.p1
             Scenario.noFlags _ Htwo); [reflexivity | vm_compute; lia].
Defined.

(** X10. Acquiring credentials and logging in never changes the flags,
    never resets the interactivity flag, and neither fetches the
    catalog nor asks for a provider. *)
Theorem triggerMethod_keeps_flags (env : Env) (provider : Provider) (f : Flow) :
  flags (snd (triggerMethod env provider f)) = flags f
  /\ (interactive f = true ->
      interactive (snd (triggerMethod env provider f)) = true)
  /\ exists evs,
       trace (snd (triggerMethod env provider f)) = trace f ++ evs
       /\ selects evs = [] /\ fetches evs = [].
Proof.
  destruct (triggerLoop_frame env provider 2 1 "" (mkCredentials "" "" "") f eq_refl)
    as (evs & Hfl & Htr & Hmono & _ & _ & Hsel & Hfet & _).
  repeat split; try done. by exists evs.
Qed.

Lemma triggerMethod_keeps_flags_witness :
  interactive (snd (triggerMethod Scenario.cluster Scenario.p1
                      (mkFlow (mkFlags "" "alice" "secret" "") true [])))
  = true.
Proof.
  destruct (triggerMethod_keeps_flags Scenario.cluster Scenario.p1
              (mkFlow (mkFlags "" "alice" "secret" "") true []))
    as (_ & Hmono & _).
  exact (Hmono eq_refl).
Defined.

(** ** Credential flows *)

Lemma acquire_from_flags (env : Env) (provider : Provider) (attempt : nat)
    (ep : string) (c : Credentials) (f : Flow) :
  clientMethod provider = methodCredential
  \/ clientMethod provider = methodUserCredential ->
  username (flags f) <> "" ->
  password_ (flags f) <> "" ->
  acquire env provider attempt ep c f
  = (Ok (StartFlowURL (Config provider),
         mkCredentials (username (flags f)) (password_ (flags f)) (Token c)), f).
Proof.
  intros Hm Hu Hp.
  apply eqb_empty_false in Hu. apply eqb_empty_false in Hp.
  unfold acquire, uid, password.
  destruct Hm as [-> | ->]; run; rewrite Hu; simpl; rewrite Hp; reflexivity.
Qed.

Lemma acquire_from_prompts (env : Env) (provider : Provider) (attempt : nat)
    (ep : string) (c : Credentials) (f : Flow) :
  clientMethod provider = methodCredential
  \/ clientMethod provider = methodUserCredential ->
  username (flags f) = "" ->
  password_ (flags f) = "" ->
  acquire env provider attempt ep c f
  = (Ok (StartFlowURL (Config provider),
         mkCredentials
           (prompt_Input env (trace f) "Username: ")
           (prompt_Password env (trace f ++ [EvInput "Username: "]) "Password: ")
           (Token c)),
     mkFlow (flags f) true
       (trace f ++ [EvInput "Username: "; EvPassword "Password: "])).
Proof.
  intros Hm Hu Hp. unfold acquire, uid, password.
  destruct Hm as [-> | ->]; run; rewrite Hu; simpl; rewrite Hp; simpl;
    by rewrite <- app_assoc.
Qed.

(** X11. With a credential provider and both the user name and the
    password given as flags, a flow that is not interactive makes one
    submission and nothing else: to the provider's start-flow URL, with
    the two flag values as they are, and what the endpoint answers is
    what the flow returns. *)
Theorem flag_credentials_submitted_verbatim (env : Env) (provider : Provider)
    (f : Flow) :
  clientMethod provider = methodCredential
  \/ clientMethod provider = methodUserCredential ->
  username (flags f) <> "" ->
  password_ (flags f) <> "" ->
  interactive f = false ->
  let url := StartFlowURL (Config provider) in
  let c := mkCredentials (username (flags f)) (password_ (flags f)) "" in
  triggerMethod env provider f
  = (of_reply (client_Login env (trace f) url c), after f [EvLogin url c]).
Proof.
  intros Hm Hu Hp Hint. cbv zeta. unfold triggerMethod.
  rewrite (triggerLoop_step _ _ _ _ _ _ _ _ _
             (acquire_from_flags env provider 1 "" _ f Hm Hu Hp)).
  rewrite Hint. simpl negb. by rewrite orb_true_r.
Qed.

Lemma flag_credentials_submitted_verbatim_witness :
  triggerMethod Cases.forgiving Scenario.p1 Scenario.withCredentials
  = (Err "rejected",
     after Scenario.withCredentials
       [EvLogin "/acs/api/v1/auth/login" (mkCredentials "alice" "secret" "")]).
Proof.
  assert (Hm : clientMethod Scenario.p1 = methodCredential
               \/ clientMethod Scenario.p1 = methodUserCredential)
    by (left; reflexivity).
  assert (Hu : username (flags Scenario.withCredentials) <> "") by discriminate.
  assert (Hp : password_ (flags Scenario.withCredentials) <> "") by discriminate.
  assert (Hint : interactive Scenario.withCredentials = false) by reflexivity.
  exact (flag_credentials_submitted_verbatim Cases.forgiving Scenario.p1
           Scenario.withCredentials Hm Hu Hp Hint).
Defined.

(** X12. With a credential provider and neither value given as a flag,
    the flow asks for the user name first, then for the password with
    the masked prompt, and then submits the two answers to the
    provider's start-flow URL. *)
Theorem prompted_credentials_in_order (env : Env) (provider : Provider)
    (f : Flow) :
  clientMethod provider = methodCredential
  \/ clientMethod provider = methodUserCredential ->
  username (flags f) = "" ->
  password_ (flags f) = "" ->
  exists rest,
    trace (snd (triggerMethod env provider f))
    = trace f
      ++ [EvInput "Username: "; EvPassword "Password: ";
          EvLogin (StartFlowURL (Config provider))
            (mkCredentials
               (prompt_Input env (trace f) "Username: ")
               (prompt_Password env (trace f ++ [EvInput "Username: "]) "Password: ")
               "")]
      ++ rest.
Proof.
  intros Hm Hu Hp. unfold triggerMethod.
  rewrite (triggerLoop_step _ _ _ _ _ _ _ _ _
             (acquire_from_prompts env provider 1 "" _ f Hm Hu Hp)).
  cbn [trace interactive Token]. simpl negb. rewrite orb_false_r.
  change (bool_decide (3 <= 1)) with false. rewrite orb_false_r.
  destruct (succeeded _).
  - exists []. cbn [snd after trace]. by rewrite <- !app_assoc.
  - match goal with
    | |- context [triggerLoop env provider 2 ?ep ?c ?f2] =>
        destruct (triggerLoop_frame env provider 1 2 ep c f2 eq_refl)
          as (evs & _ & Htr & _)
    end.
    exists evs. rewrite Htr. cbn [after trace]. by rewrite <- !app_assoc.
Qed.

Lemma prompted_credentials_in_order_witness :
  exists rest,
    trace (snd (triggerMethod Cases.forgiving Scenario.p1 Scenario.noFlags))
    = trace Scenario.noFlags
      ++ [EvInput "Username: "; EvPassword "Password: ";
          EvLogin "/acs/api/v1/auth/login" (mkCredentials "alice" "secret" "")]
      ++ rest.
Proof.
  assert (Hm : clientMethod Scenario.p1 = methodCredential
               \/ clientMethod Scenario.p1 = methodUserCredential)
    by (left; reflexivity).
  assert (Hu : username (flags Scenario.noFlags) = "") by reflexivity.
  assert (Hp : password_ (flags Scenario.noFlags) = "") by reflexivity.
  exact (prompted_credentials_in_order Cases.forgiving Scenario.p1
           Scenario.noFlags Hm Hu Hp).
Defined.

(** ** Service-credential flows *)

(** X13. With a service-credential provider and a key the signer
    refuses, the flow ends with the signer's error before any
    submission, and it does not try again even when the user name was
    typed at the prompt: the only possible event is that prompt. *)
Theorem signing_failure_is_fatal (env : Env) (provider : Provider) (f : Flow)
    (e : error) :
  clientMethod provider = methodServiceCredential ->
  (forall jwt, jwt_SignedString env jwt (privateKey (flags f)) = Failure e) ->
  fst (triggerMethod env provider f) = Err e
  /\ trace (snd (triggerMethod env provider f))
     = trace f ++ (if String.eqb (username (flags f)) ""
                   then [EvInput "Username: "] else [])
  /\ logins (trace (snd (triggerMethod env provider f))) = logins (trace f).
Proof.
  intros Hm Hkey. unfold triggerMethod.
  assert (Hacq : acquire env provider 1 "" (mkCredentials "" "" "") f
                 = (Err e,
                    if String.eqb (username (flags f)) ""
                    then mkFlow (flags f) true (trace f ++ [EvInput "Username: "])
                    else f)).
  { unfold acquire, uid, serviceToken. rewrite Hm. run.
    destruct (String.eqb (username (flags f)) ""); simpl; by rewrite Hkey. }
  rewrite (triggerLoop_abort _ _ _ _ _ _ _ _ Hacq).
  destruct (String.eqb (username (flags f)) ""); simpl.
  - repeat split. by rewrite logins_app, app_nil_r.
  - by rewrite app_nil_r.
Qed.

Lemma signing_failure_is_fatal_witness :
  fst (triggerMethod Cases.keyless Scenario.p3 Scenario.noFlags)
  = Err "key is invalid"
  /\ trace (snd (triggerMethod Cases.keyless Scenario.p3 Scenario.noFlags))
     = [EvInput "Username: "]
  /\ logins (trace (snd (triggerMethod Cases.keyless Scenario.p3 Scenario.noFlags)))
     = [].
Proof.
  assert (Hm : clientMethod Scenario.p3 = methodServiceCredential) by reflexivity.
  assert (Hkey : forall jwt,
             jwt_SignedString Cases.keyless jwt (privateKey (flags Scenario.noFlags))
             = Failure "key is invalid") by reflexivity.
  exact (signing_failure_is_fatal Cases.keyless Scenario.p3 Scenario.noFlags _
           Hm Hkey).
Defined.

(** X14. With a service-credential provider and the user name given as
    a flag, the first event of the flow is a submission to the default
    login endpoint that carries the user name, no password, and the
    token the signer made at that moment for that user name. *)
Theorem service_submission (env : Env) (provider : Provider) (f : Flow)
    (token : string) :
  clientMethod provider = methodServiceCredential ->
  username (flags f) <> "" ->
  jwt_SignedString env
    (mkJWT "RS256" (serviceClaims (username (flags f)) (time_Now env (trace f))))
    (privateKey (flags f)) = Success token ->
  exists rest,
    trace (snd (triggerMethod env provider f))
    = trace f ++ EvLogin "" (mkCredentials (username (flags f)) "" token) :: rest.
Proof.
  intros Hm Hu Hsign. unfold triggerMethod.
  assert (Hacq : acquire env provider 1 "" (mkCredentials "" "" "") f
                 = (Ok ("", mkCredentials (username (flags f)) "" token), f)).
  { unfold acquire, uid, serviceToken. rewrite Hm. run.
    rewrite (eqb_empty_false _ Hu). simpl. by rewrite Hsign. }
  rewrite (triggerLoop_step _ _ _ _ _ _ _ _ _ Hacq).
  destruct (_ || _).
  - by exists [].
  - match goal with
    | |- context [triggerLoop env provider 2 ?ep ?c ?f2] =>
        destruct (triggerLoop_frame env provider 1 2 ep c f2 eq_refl)
          as (evs & _ & Htr & _)
    end.
    exists evs. rewrite Htr. cbn [after trace]. by rewrite <- app_assoc.
Qed.

Lemma service_submission_witness :
  exists rest,
    trace (snd (triggerMethod Scenario.cluster Scenario.p3 Scenario.withCredentials))
    = trace Scenario.withCredentials
      ++ EvLogin "" (mkCredentials "alice" "" "header.payload.signature") :: rest.
Proof.
  assert (Hm : clientMethod Scenario.p3 = methodServiceCredential) by reflexivity.
  assert (Hu : username (flags Scenario.withCredentials) <> "") by discriminate.
  assert (Hsign :
            jwt_SignedString Scenario.cluster
              (mkJWT "RS256"
                 (serviceClaims (username (flags Scenario.withCredentials))
                    (time_Now Scenario.cluster (trace Scenario.withCredentials))))
              (privateKey (flags Scenario.withCredentials))
            = Success "header.payload.signature") by reflexivity.
  exact (service_submission Scenario.cluster Scenario.p3 Scenario.withCredentials
           _ Hm Hu Hsign).
Defined.

(** ** Browser-token flows, again *)

Lemma acquire_browser_cases (env : Env) (provider : Provider) (attempt : nat)
    (c : Credentials) (f : Flow) :
  clientMethod provider = methodBrowserToken ->
  (exists e, acquire env provider attempt "" c f = (Err e, f))
  \/ (exists pre token,
        acquire env provider attempt "" c f
        = (Ok ("", mkCredentials (UID c) (Password c) token),
           mkFlow (flags f) true (trace f ++ pre))
        /\ logins pre = []).
Proof.
  intros Hm. destruct (Nat.eq_dec attempt 1) as [->|Hn].
  - destruct (resolveURL env (StartFlowURL (Config provider))) as [url|e] eqn:Hurl.
    + right. rewrite (acquire_browser_first _ _ _ _ _ _ Hm Hurl). cbv zeta.
      rewrite <- app_assoc. eexists _, _. split; [reflexivity|].
      rewrite logins_app.
      by destruct (browserEvents_read env (trace f) url) as (_ & _ & ->).
    + left. exists e. exact (acquire_browser_unresolved _ _ _ _ _ _ Hm Hurl).
  - right. rewrite (acquire_browser_next _ _ _ _ _ _ Hm Hn). by eexists _, _.
Qed.

Lemma browser_logins (env : Env) (provider : Provider) :
  clientMethod provider = methodBrowserToken ->
  forall (k attempt : nat) (c : Credentials) (f : Flow),
    attempt + k = 3 ->
    UID c = "" -> Password c = "" ->
    exists evs,
      trace (snd (triggerLoop env provider attempt "" c f)) = trace f ++ evs
      /\ Forall (fun s => fst s = "" /\ UID (snd s) = "" /\ Password (snd s) = "")
                (logins evs).
Proof.
  intros Hm k. induction k as [|k IH]; intros attempt c f Hk Hu Hp;
    (destruct (acquire_browser_cases env provider attempt c f Hm)
      as [[e Hacq] | (pre & token & Hacq & Hpre)];
     [rewrite (triggerLoop_abort _ _ _ _ _ _ _ _ Hacq);
      exists []; by rewrite app_nil_r |]);
    rewrite (triggerLoop_step _ _ _ _ _ _ _ _ _ Hacq);
    cbn [trace interactive]; rewrite Hu, Hp.
  - rewrite (bool_decide_eq_true_2 (3 <= attempt)) by lia. rewrite orb_true_r.
    exists (pre ++ [EvLogin "" (mkCredentials "" "" token)]).
    cbn [snd after trace]. rewrite <- app_assoc. split; [done|].
    rewrite logins_app, Hpre. simpl. by repeat constructor.
  - destruct (_ || _).
    + exists (pre ++ [EvLogin "" (mkCredentials "" "" token)]).
      cbn [snd after trace]. rewrite <- app_assoc. split; [done|].
      rewrite logins_app, Hpre. simpl. by repeat constructor.
    + match goal with
      | |- context [triggerLoop env provider (S attempt) "" ?c1 ?f2] =>
          destruct (IH (S attempt) c1 f2) as (evs & Htr & Hall); [lia|done|done|]
      end.
      exists (pre ++ [EvLogin "" (mkCredentials "" "" token)] ++ evs).
      rewrite Htr. cbn [after trace]. rewrite <- !app_assoc. split; [done|].
      rewrite !logins_app, Hpre. simpl. by constructor.
Qed.

(** X15. Every submission of a browser-token flow goes to the default
    login endpoint and carries neither a user name nor a password, also
    when the flags give them. *)
Theorem browser_submissions_carry_only_token (env : Env) (provider : Provider)
    (f : Flow) :
  clientMethod provider = methodBrowserToken ->
  exists evs,
    trace (snd (triggerMethod env provider f)) = trace f ++ evs
    /\ Forall (fun s => fst s = "" /\ UID (snd s) = "" /\ Password (snd s) = "")
              (logins evs).
Proof.
  intros Hm. unfold triggerMethod.
  exact (browser_logins env provider Hm 2 1 (mkCredentials "" "" "") f
           eq_refl eq_refl eq_refl).
Qed.

Lemma browser_submissions_carry_only_token_witness :
  exists evs,
    trace (snd (triggerMethod Scenario.cluster Scenario.p2 Scenario.withCredentials))
    = trace Scenario.withCredentials ++ evs
    /\ Forall (fun s => fst s = "" /\ UID (snd s) = "" /\ Password (snd s) = "")
              (logins evs).
Proof.
  assert (Hm : clientMethod Scenario.p2 = methodBrowserToken) by reflexivity.
  exact (browser_submissions_carry_only_token Scenario.cluster Scenario.p2
           Scenario.withCredentials Hm).
Defined.

(** ** Every submission of a credential flow *)

Lemma acquire_credential_cases (env : Env) (provider : Provider) (attempt : nat)
    (ep : string) (c : Credentials) (f : Flow) :
  clientMethod provider = methodCredential
  \/ clientMethod provider = methodUserCredential ->
  exists u p i pre,
    acquire env provider attempt ep c f
    = (Ok (StartFlowURL (Config provider), mkCredentials u p (Token c)),
       mkFlow (flags f) i (trace f ++ pre))
    /\ logins pre = []
    /\ (username (flags f) <> "" -> u = username (flags f))
    /\ (password_ (flags f) <> "" -> p = password_ (flags f)).
Proof.
  intros Hm. unfold acquire, uid, password.
  destruct Hm as [-> | ->]; run; destruct f as [fl i h]; simpl;
    destruct (String.eqb_spec (username fl) ""); simpl;
    destruct (String.eqb_spec (password_ fl) ""); simpl;
    rewrite <- ?app_assoc;
    first [ by eexists _, _, _, _; repeat split
          | by eexists _, _, _, []; rewrite app_nil_r; repeat split ].
Qed.

Lemma credential_logins (env : Env) (provider : Provider) :
  clientMethod provider = methodCredential
  \/ clientMethod provider = methodUserCredential ->
  forall (k attempt : nat) (ep : string) (c : Credentials) (f : Flow),
    attempt + k = 3 ->
    Token c = "" ->
    exists evs,
      trace (snd (triggerLoop env provider attempt ep c f)) = trace f ++ evs
      /\ Forall (fun s =>
                   fst s = StartFlowURL (Config provider)
                   /\ Token (snd s) = ""
                   /\ (username (flags f) <> "" -> UID (snd s) = username (flags f))
                   /\ (password_ (flags f) <> "" ->
                       Password (snd s) = password_ (flags f)))
                (logins evs).
Proof.
  intros Hm k. induction k as [|k IH]; intros attempt ep c f Hk Htok;
    destruct (acquire_credential_cases env provider attempt ep c f Hm)
      as (u & p & i & pre & Hacq & Hpre & Hu & Hp);
    rewrite (triggerLoop_step _ _ _ _ _ _ _ _ _ Hacq);
    cbn [trace interactive]; rewrite Htok.
  - rewrite (bool_decide_eq_true_2 (3 <= attempt)) by lia. rewrite orb_true_r.
    exists (pre ++ [EvLogin (StartFlowURL (Config provider)) (mkCredentials u p "")]).
    cbn [snd after trace]. rewrite <- app_assoc. split; [done|].
    rewrite logins_app, Hpre. simpl. by repeat constructor.
  - destruct (_ || _).
    + exists (pre ++ [EvLogin (StartFlowURL (Config provider))
                        (mkCredentials u p "")]).
      cbn [snd after trace]. rewrite <- app_assoc. split; [done|].
      rewrite logins_app, Hpre. simpl. by repeat constructor.
    + match goal with
      | |- context [triggerLoop env provider (S attempt) ?ep1 ?c1 ?f2] =>
          destruct (IH (S attempt) ep1 c1 f2) as (evs & Htr & Hall); [lia|done|]
      end.
      exists (pre ++ [EvLogin (StartFlowURL (Config provider))
                        (mkCredentials u p "")] ++ evs).
      rewrite Htr. cbn [after trace]. rewrite <- !app_assoc. split; [done|].
      rewrite !logins_app, Hpre. simpl. by constructor.
Qed.

(** X24. Every submission of a credential flow, the first one and the
    retries alike, goes to the provider's start-flow URL and carries no
    token; a user name given as a flag is sent as it is every time, and
    so is a password given as a flag. *)
Theorem credential_submissions_reuse_flags (env : Env) (provider : Provider)
    (f : Flow) :
  clientMethod provider = methodCredential
  \/ clientMethod provider = methodUserCredential ->
  exists evs,
    trace (snd (triggerMethod env provider f)) = trace f ++ evs
    /\ Forall (fun s =>
                 fst s = StartFlowURL (Config provider)
                 /\ Token (snd s) = ""
                 /\ (username (flags f) <> "" -> UID (snd s) = username (flags f))
                 /\ (password_ (flags f) <> "" ->
                     Password (snd s) = password_ (flags f)))
              (logins evs).
Proof.
  intros Hm. unfold triggerMethod.
  exact (credential_logins env provider Hm 2 1 "" (mkCredentials "" "" "") f
           eq_refl eq_refl).
Qed.

Lemma credential_submissions_reuse_flags_witness :
  exists evs,
    trace (snd (triggerMethod Scenario.cluster Scenario.p1
                  (mkFlow (mkFlags "" "alice" "" "") false [])))
    = [] ++ evs
    /\ Forall (fun s =>
                 fst s = "/acs/api/v1/auth/login"
                 /\ Token (snd s) = ""
                 /\ ("alice" <> "" -> UID (snd s) = "alice")
                 /\ ("" <> "" -> Password (snd s) = ""))
              (logins evs).
Proof.
  assert (Hm : clientMethod Scenario.p1 = methodCredential
               \/ clientMethod Scenario.p1 = methodUserCredential)
    by (left; reflexivity).
  exact (credential_submissions_reuse_flags Scenario.cluster Scenario.p1
           (mkFlow (mkFlags "" "alice" "" "") false []) Hm).
Defined.

(** X23. A provider whose client method is none of the four known ones
    is not refused: a flow that is not interactive submits empty
    credentials to the default login endpoint once, without any prompt,
    and returns what the endpoint answers. *)
Theorem unknown_method_submits_empty (env : Env) (provider : Provider)
    (f : Flow) (name : string) :
  clientMethod provider = methodOther name ->
  interactive f = false ->
  triggerMethod env provider f
  = (of_reply (client_Login env (trace f) "" (mkCredentials "" "" "")),
     after f [EvLogin "" (mkCredentials "" "" "")]).
Proof.
  intros Hm Hint. unfold triggerMethod.
  assert (Hacq : acquire env provider 1 "" (mkCredentials "" "" "") f
                 = (Ok ("", mkCredentials "" "" ""), f))
    by (unfold acquire; by rewrite Hm).
  rewrite (triggerLoop_step _ _ _ _ _ _ _ _ _ Hacq), Hint.
  simpl negb. by rewrite orb_true_r.
Qed.

Lemma unknown_method_submits_empty_witness :
  triggerMethod Scenario.cluster
    (mkProvider "p9" "Kerberos" (methodOther "kerberos") (mkConfig "/krb"))
    Scenario.noFlags
  = (Err "rejected after 0 events",
     after Scenario.noFlags [EvLogin "" (mkCredentials "" "" "")]).
Proof.
  exact (unknown_method_submits_empty Scenario.cluster
           (mkProvider "p9" "Kerberos" (methodOther "kerberos") (mkConfig "/krb"))
           Scenario.noFlags "kerberos" eq_refl eq_refl).
Defined.

(** ** Provider selection, again *)

Lemma selectProvider_by_ID (env : Env) (providers : Providers) (f : Flow) :
  providerID (flags f) <> "" ->
  selectProvider env providers f
  = (match providers !! providerID (flags f) with
     | Some provider => Ok provider
     | None => Err ("unknown login provider ID '" +:+ providerID (flags f) +:+ "'")
     end, f).
Proof.
  intros Hid. unfold selectProvider. rewrite bind_get.
  rewrite (eqb_empty_false _ Hid). simpl negb. cbv iota.
  by destruct (providers !! providerID (flags f)).
Qed.

Lemma exclusions_silent (env : Env) (fl : Flags) (l : list Provider) :
  fetches (exclusions env fl l) = [] /\ prompted (exclusions env fl l) = [].
Proof.
  unfold exclusions.
  induction (List.filter _ l) as [|x xs IH]; simpl; [done|].
  unfold fetches, prompted in *; simpl. tauto.
Qed.

Lemma compatible_elem (env : Env) (fl : Flags) (providers : Providers)
    (provider : Provider) :
  provider ∈ compatible env fl providers
  <-> (exists id, providers !! id = Some provider)
      /\ flags_Supports env fl provider = true.
Proof.
  unfold compatible.
  rewrite list_elem_of_In, List.filter_In, <- list_elem_of_In, Slice_elem.
  tauto.
Qed.

Lemma selected_Ok (l : list Provider) (r : reply Z) (provider : Provider) :
  selected l r = Ok provider -> provider ∈ l.
Proof.
  unfold selected. destruct r as [i|e]; [|discriminate].
  destruct (0 <=? i)%Z; [|discriminate].
  destruct (l !! Z.to_nat i) as [x|] eqn:Hx; [|discriminate].
  intros [= <-]. by apply list_elem_of_lookup_2 in Hx.
Qed.

(** X1. When no provider ID is given and exactly one provider is
    compatible with the flags, that provider is selected without asking:
    the only events are the reports of the excluded providers. *)
Theorem implicit_selection (env : Env) (providers : Providers) (f : Flow)
    (provider : Provider) :
  providerID (flags f) = "" ->
  compatible env (flags f) providers = [provider] ->
  selectProvider env providers f
  = (Ok provider, after f (exclusions env (flags f) (Slice providers)))
  /\ selects (exclusions env (flags f) (Slice providers)) = [].
Proof.
  intros Hid Hone. split.
  - rewrite selectProvider_filtered by done. cbv zeta. by rewrite Hone.
  - by destruct (exclusions_quiet env (flags f) (Slice providers)) as (_ & _ & _ & ->).
Qed.

Lemma implicit_selection_witness :
  selectProvider Cases.keyless Scenario.catalog Scenario.noFlags
  = (Ok Scenario.p2,
     after Scenario.noFlags
       [EvLogInfo "Excluding provider 'p1' based on command-line flags."])
  /\ selects (exclusions Cases.keyless (flags Scenario.noFlags)
                (Slice Scenario.catalog)) = [].
Proof.
  assert (Hid : providerID (flags Scenario.noFlags) = "") by reflexivity.
  assert (Hone : compatible Cases.keyless (flags Scenario.noFlags) Scenario.catalog
                 = [Scenario.p2]) by (vm_compute; reflexivity).
  exact (implicit_selection Cases.keyless Scenario.catalog Scenario.noFlags
           Scenario.p2 Hid Hone).
Defined.

(** X2. A provider that selection returns is always an entry of the
    catalog: the entry of the requested ID when an ID is given, and
    otherwise an entry the flags are compatible with. *)
Theorem selected_provider_in_catalog (env : Env) (providers : Providers)
    (f : Flow) (provider : Provider) :
  fst (selectProvider env providers f) = Ok provider ->
  (exists id, providers !! id = Some provider)
  /\ (providerID (flags f) <> "" ->
      providers !! providerID (flags f) = Some provider)
  /\ (providerID (flags f) = "" ->
      flags_Supports env (flags f) provider = true).
Proof.
  intros Hsel. destruct (decide (providerID (flags f) = "")) as [Hid|Hid].
  - assert (Hin : provider ∈ compatible env (flags f) providers).
    { rewrite selectProvider_filtered in Hsel by done. cbv zeta in Hsel.
      destruct (compatible env (flags f) providers) as [|a [|b l]] eqn:Hl;
        simpl in Hsel.
      - discriminate.
      - injection Hsel as ->. apply list_elem_of_here.
      - by apply selected_Ok in Hsel. }
    apply compatible_elem in Hin as [Hcat Hsup]. done.
  - rewrite selectProvider_by_ID in Hsel by done. simpl in Hsel.
    destruct (providers !! providerID (flags f)) as [x|] eqn:Hx; [|discriminate].
    injection Hsel as ->. split; [by eexists|]. split; [done|]. intros Hempty. done.
Qed.

Lemma selected_provider_in_catalog_witness :
  (exists id, Scenario.catalog !! id = Some Scenario.p1)
  /\ (providerID (flags Scenario.noFlags) <> "" ->
      Scenario.catalog !! providerID (flags Scenario.noFlags) = Some Scenario.p1)
  /\ (providerID (flags Scenario.noFlags) = "" ->
      flags_Supports Scenario.cluster (flags Scenario.noFlags) Scenario.p1 = true).
Proof.
  assert (Hsel : fst (selectProvider Scenario.cluster Scenario.catalog
                        Scenario.noFlags) = Ok Scenario.p1)
    by (vm_compute; reflexivity).
  exact (selected_provider_in_catalog Scenario.cluster Scenario.catalog
           Scenario.noFlags Scenario.p1 Hsel).
Defined.

(** The effect of a selection on the flow: some events after it, none
    of them a catalog fetch, a submission or a credential prompt, at
    most one of them the selection prompt. *)
Lemma selection_events (env : Env) (providers : Providers) (f : Flow) :
  exists evs,
    snd (selectProvider env providers f) = after f evs
    /\ logins evs = [] /\ opens evs = [] /\ errouts evs = []
    /\ fetches evs = [] /\ prompted evs = []
    /\ length (selects evs) <= 1.
Proof.
  destruct (decide (providerID (flags f) = "")) as [Hid|Hid].
  - rewrite selectProvider_filtered by done. cbv zeta.
    destruct (exclusions_quiet env (flags f) (Slice providers))
      as (Hl & Ho & He & Hs).
    destruct (exclusions_silent env (flags f) (Slice providers)) as (Hf & Hp).
    destruct (compatible env (flags f) providers) as [|a [|b l]].
    + eexists. split; [reflexivity|]. rewrite Hl, Ho, He, Hs, Hf, Hp. simpl.
      repeat split; lia.
    + eexists. split; [reflexivity|]. rewrite Hl, Ho, He, Hs, Hf, Hp. simpl.
      repeat split; lia.
    + eexists. split; [cbn [snd]; apply after_after|].
      unfold logins, opens, errouts, fetches, prompted, selects in *.
      rewrite !omap_app, Hl, Ho, He, Hs, Hf, Hp. simpl. repeat split; lia.
  - rewrite selectProvider_by_ID by done. exists []. cbn [snd]. rewrite after_nil.
    repeat split. simpl. lia.
Qed.

Lemma selection_frame (env : Env) (providers : Providers) (f : Flow) :
  exists evs,
    snd (selectProvider env providers f) = after f evs
    /\ logins evs = [] /\ fetches evs = [] /\ length (selects evs) <= 1.
Proof.
  destruct (selection_events env providers f)
    as (evs & Hsnd & Hl & _ & _ & Hf & _ & Hs).
  by exists evs.
Qed.

Lemma selection_only_events (env : Env) (providers : Providers) (f : Flow) :
  exists evs,
    snd (selectProvider env providers f) = after f evs
    /\ logins evs = [] /\ prompted evs = [].
Proof.
  destruct (selection_events env providers f)
    as (evs & Hsnd & Hl & _ & _ & _ & Hp & _).
  by exists evs.
Qed.

(** X3. Selection never touches the flags or the interactivity flag,
    never fetches the catalog, opens the browser, writes to the error
    stream, asks for a credential or submits one; it asks for a
    provider at most once. *)
Theorem selection_only_reports_and_asks (env : Env) (providers : Providers)
    (f : Flow) :
  exists evs,
    snd (selectProvider env providers f) = after f evs
    /\ logins evs = [] /\ opens evs = [] /\ errouts evs = []
    /\ fetches evs = [] /\ prompted evs = []
    /\ length (selects evs) <= 1.
Proof. exact (selection_events env providers f). Qed.


(** X4. In a manual selection, an index from the prompt that lies
    outside the list of candidates makes the flow panic: the index is
    used without a bounds check. *)
Theorem manual_selection_out_of_range_panics (env : Env) (providers : Providers)
    (f : Flow) (i : Z) :
  providerID (flags f) = "" ->
  2 <= length (compatible env (flags f) providers) ->
  prompt_Select env (trace f ++ exclusions env (flags f) (Slice providers))
    "Please select a login method:" (compatible env (flags f) providers)
  = Success i ->
  (i < 0 \/ Z.of_nat (length (compatible env (flags f) providers)) <= i)%Z ->
  fst (selectProvider env providers f) = Panic "index out of range".
Proof.
  intros Hid Hlen Hprompt Hrange.
  rewrite selectProvider_filtered by done. cbv zeta.
  destruct (compatible env (flags f) providers) as [|a [|b l]] eqn:Hl;
    simpl in Hlen; [lia | lia |].
  cbn [fst after trace]. rewrite Hprompt. unfold selected.
  destruct (0 <=? i)%Z eqn:Hpos; [|done].
  apply Z.leb_le in Hpos.
  rewrite (lookup_ge_None_2 (a :: b :: l) (Z.to_nat i)); [done|].
  destruct Hrange as [Hneg|Hbig]; lia.
Qed.

Lemma manual_selection_out_of_range_panics_witness :
  fst (selectProvider Cases.clumsy Scenario.catalog Scenario.noFlags)
  = Panic "index out of range".
Proof.
  apply (manual_selection_out_of_range_panics Cases.clumsy Scenario.catalog
           Scenario.noFlags 7).
  - reflexivity.
  - vm_compute. lia.
  - reflexivity.
  - right. vm_compute. discriminate.
Defined.

(** X5. In a manual selection, an error of the prompt is returned as
    it is, after the prompt was shown once; no provider is selected. *)
Theorem manual_selection_prompt_error (env : Env) (providers : Providers)
    (f : Flow) (e : error) :
  providerID (flags f) = "" ->
  2 <= length (compatible env (flags f) providers) ->
  prompt_Select env (trace f ++ exclusions env (flags f) (Slice providers))
    "Please select a login method:" (compatible env (flags f) providers)
  = Failure e ->
  selectProvider env providers f
  = (Err e,
     after f (exclusions env (flags f) (Slice providers)
              ++ [EvSelect "Please select a login method:"
                    (compatible env (flags f) providers)])).
Proof.
  intros Hid Hlen Hprompt.
  rewrite selectProvider_filtered by done. cbv zeta.
  destruct (compatible env (flags f) providers) as [|a [|b l]] eqn:Hl;
    simpl in Hlen; [lia | lia |].
  rewrite after_after. cbn [after trace]. by rewrite Hprompt.
Qed.

Lemma manual_selection_prompt_error_witness :
  selectProvider Cases.mute Scenario.catalog Scenario.noFlags
  = (Err "EOF",
     after Scenario.noFlags
       [EvSelect "Please select a login method:" [Scenario.p1; Scenario.p2]]).
Proof.
  assert (Hid : providerID (flags Scenario.noFlags) = "") by reflexivity.
  assert (Hlen : 2 <= length (compatible Cases.mute (flags Scenario.noFlags)
                                Scenario.catalog)) by (vm_compute; lia).
  assert (Hprompt :
            prompt_Select Cases.mute
              (trace Scenario.noFlags
               ++ exclusions Cases.mute (flags Scenario.noFlags)
                    (Slice Scenario.catalog))
              "Please select a login method:"
              (compatible Cases.mute (flags Scenario.noFlags) Scenario.catalog)
            = Failure "EOF") by reflexivity.
  exact (manual_selection_prompt_error Cases.mute Scenario.catalog
           Scenario.noFlags "EOF" Hid Hlen Hprompt).
Defined.

Lemma filter_split_length {A} (g : A -> bool) (l : list A) :
  length (List.filter g l) + length (List.filter (fun x => negb (g x)) l)
  = length l.
Proof.
  induction l as [|x xs IH]; simpl; [done|].
  destruct (g x); simpl; lia.
Qed.

(** X6. The candidate loop goes through the whole catalog once: every
    entry is either kept as a candidate or reported as excluded, never
    both and never twice, and the candidates are exactly the entries the
    flags are compatible with. *)
Theorem candidates_partition (env : Env) (providers : Providers) (f : Flow) :
  exists l evs,
    candidates env (Slice providers) [] f = (Ok l, after f evs)
    /\ length l + length evs = size providers
    /\ (forall provider,
          provider ∈ l
          <-> (exists id, providers !! id = Some provider)
              /\ flags_Supports env (flags f) provider = true).
Proof.
  exists (compatible env (flags f) providers),
         (exclusions env (flags f) (Slice providers)).
  split; [by rewrite candidates_spec|]. split.
  - unfold compatible, exclusions. rewrite length_map, filter_split_length.
    unfold Slice. by rewrite length_fmap, length_map_to_list.
  - intros provider. apply compatible_elem.
Qed.

(** ** The whole flow, again *)

(** [Start], step by step. *)
Lemma Start_run (env : Env) (fl : Flags) (f : Flow) :
  Start env fl f
  = match flags_Resolve env fl with
    | Failure e => (Err e, f)
    | Success resolved =>
        let f1 := mkFlow resolved (interactive f) (trace f ++ [EvProviders]) in
        match client_Providers env (trace f) with
        | Failure e => (Err e, f1)
        | Success providers =>
            match selectProvider env providers f1 with
            | (Ok provider, f2) =>
                triggerMethod env provider
                  (after f2 [EvLogInfo ("Using login provider '"
                                          +:+ Type_ provider +:+ "'.")])
            | (Err e, f2) => (Err e, f2)
            | (Panic msg, f2) => (Panic msg, f2)
            end
        end
    end.
Proof.
  unfold Start. rewrite bind_run. unfold lift at 1.
  destruct (flags_Resolve env fl) as [resolved|e]; [|done].
  simpl of_reply. cbv iota. run.
  destruct (client_Providers env (trace f)) as [providers|e]; [|done].
  simpl.
  destruct (selectProvider env providers _) as [[provider|e|msg] f2]; done.
Qed.

(** X16. A failure before the selection ends the flow at once: when
    the flags do not resolve nothing at all happens, and when the
    catalog cannot be fetched the fetch is the only event; in both
    cases the error is returned as it is. *)
Theorem start_fails_early (env : Env) (fl : Flags) (f : Flow) (e : error) :
  (flags_Resolve env fl = Failure e -> Start env fl f = (Err e, f))
  /\ (forall resolved,
        flags_Resolve env fl = Success resolved ->
        client_Providers env (trace f) = Failure e ->
        Start env fl f
        = (Err e, mkFlow resolved (interactive f) (trace f ++ [EvProviders]))).
Proof.
  split.
  - intros Hres. by rewrite Start_run, Hres.
  - intros resolved Hres Hcat. by rewrite Start_run, Hres, Hcat.
Qed.

Lemma start_fails_early_witness :
  Start Cases.down (mkFlags "" "alice" "" "key") Scenario.noFlags
  = (Err "--username and --private-key are exclusive", Scenario.noFlags)
  /\ Start Cases.offline (mkFlags "" "alice" "" "") Scenario.noFlags
     = (Err "connection refused",
        mkFlow (mkFlags "" "alice" "" "") false [EvProviders]).
Proof.
  split.
  - apply (start_fails_early Cases.down (mkFlags "" "alice" "" "key")
             Scenario.noFlags). reflexivity.
  - apply (start_fails_early Cases.offline (mkFlags "" "alice" "" "")
             Scenario.noFlags "connection refused"); reflexivity.
Defined.

(** X17. When the flags name a provider that the catalog lacks, the
    flow ends with the error that names the ID right after the catalog
    fetch: nobody is asked and nothing is submitted. *)
Theorem start_unknown_provider (env : Env) (fl resolved : Flags)
    (providers : Providers) (f : Flow) :
  flags_Resolve env fl = Success resolved ->
  client_Providers env (trace f) = Success providers ->
  providerID resolved <> "" ->
  providers !! providerID resolved = None ->
  Start env fl f
  = (Err ("unknown login provider ID '" +:+ providerID resolved +:+ "'"),
     mkFlow resolved (interactive f) (trace f ++ [EvProviders])).
Proof.
  intros Hres Hcat Hid Hnone.
  rewrite Start_run, Hres, Hcat. cbv zeta.
  rewrite selectProvider_by_ID by done. cbn [flags]. by rewrite Hnone.
Qed.

Lemma start_unknown_provider_witness :
  Start Scenario.cluster (mkFlags "missing" "" "" "") Scenario.noFlags
  = (Err "unknown login provider ID 'missing'",
     mkFlow (mkFlags "missing" "" "" "") false [EvProviders]).
Proof.
  assert (Hres : flags_Resolve Scenario.cluster (mkFlags "missing" "" "" "")
                 = Success (mkFlags "missing" "" "" "")) by reflexivity.
  assert (Hcat : client_Providers Scenario.cluster (trace Scenario.noFlags)
                 = Success Scenario.catalog) by reflexivity.
  assert (Hid : providerID (mkFlags "missing" "" "" "") <> "") by discriminate.
  assert (Hnone : Scenario.catalog !! providerID (mkFlags "missing" "" "" "") = None)
    by (vm_compute; reflexivity).
  exact (start_unknown_provider Scenario.cluster _ _ Scenario.catalog
           Scenario.noFlags Hres Hcat Hid Hnone).
Defined.

(** X18. In any run of the whole flow the catalog is fetched at most
    once, the user is asked to pick a provider at most once, and at
    most three submissions are made. *)
Theorem start_bounds (env : Env) (fl : Flags) (f : Flow) :
  exists evs,
    trace (snd (Start env fl f)) = trace f ++ evs
    /\ length (fetches evs) <= 1
    /\ length (selects evs) <= 1
    /\ length (logins evs) <= 3.
Proof.
  rewrite Start_run.
  destruct (flags_Resolve env fl) as [resolved|e];
    [|exists []; rewrite app_nil_r; simpl; repeat split; lia].
  cbv zeta.
  destruct (client_Providers env (trace f)) as [providers|e];
    [|exists [EvProviders]; simpl; repeat split; lia].
  destruct (selection_frame env providers
              (mkFlow resolved (interactive f) (trace f ++ [EvProviders])))
    as (evs1 & Hsnd & Hl1 & Hf1 & Hs1).
  destruct (selectProvider env providers _) as [[provider|e|msg] f2];
    cbn [snd] in Hsnd; subst f2;
    try (exists (EvProviders :: evs1); cbn [snd after trace];
         rewrite <- app_assoc; split; [done|];
         change (EvProviders :: evs1) with ([EvProviders] ++ evs1);
         rewrite fetches_app, selects_app, logins_app, Hl1, Hf1; simpl;
         repeat split; lia).
  match goal with
  | |- context [triggerMethod env provider ?f3] =>
      unfold triggerMethod;
      destruct (triggerLoop_frame env provider 2 1 "" (mkCredentials "" "" "")
                  f3 eq_refl)
        as (evs2 & _ & Htr & _ & Hlen & _ & Hs2 & Hf2 & _)
  end.
  exists ([EvProviders] ++ evs1
          ++ [EvLogInfo ("Using login provider '" +:+ Type_ provider +:+ "'.")]
          ++ evs2).
  rewrite Htr. cbn [after trace]. rewrite <- !app_assoc. split; [done|].
  rewrite !fetches_app, !selects_app, !logins_app, Hl1, Hf1, Hs2, Hf2.
  simpl. rewrite app_nil_r. repeat split; lia.
Qed.

(** X19. Once a provider is selected, the flow reports it at info
    level by its type and then goes on with the credentials of that
    provider; the report comes before any prompt for a credential and
    before any submission. *)
Theorem start_announces_provider (env : Env) (fl resolved : Flags)
    (providers : Providers) (provider : Provider) (f f2 : Flow) :
  flags_Resolve env fl = Success resolved ->
  client_Providers env (trace f) = Success providers ->
  selectProvider env providers
    (mkFlow resolved (interactive f) (trace f ++ [EvProviders]))
  = (Ok provider, f2) ->
  Start env fl f
  = triggerMethod env provider
      (after f2 [EvLogInfo ("Using login provider '" +:+ Type_ provider +:+ "'.")])
  /\ exists evs rest,
       trace f2 = trace f ++ EvProviders :: evs
       /\ logins evs = [] /\ prompted evs = []
       /\ trace (snd (Start env fl f))
          = trace f2
            ++ EvLogInfo ("Using login provider '" +:+ Type_ provider +:+ "'.")
            :: rest.
Proof.
  intros Hres Hcat Hsel. rewrite Start_run, Hres, Hcat. cbv zeta. rewrite Hsel.
  split; [done|].
  destruct (selection_only_events env providers
              (mkFlow resolved (interactive f) (trace f ++ [EvProviders])))
    as (evs & Hsnd & Hl & Hp).
  rewrite Hsel in Hsnd. cbn [snd] in Hsnd. subst f2.
  match goal with
  | |- context [triggerMethod env provider ?f3] =>
      unfold triggerMethod;
      destruct (triggerLoop_frame env provider 2 1 "" (mkCredentials "" "" "")
                  f3 eq_refl)
        as (rest & _ & Htr & _)
  end.
  exists evs, rest. rewrite Htr. cbn [after trace].
  by rewrite <- !app_assoc.
Qed.

Lemma start_announces_provider_witness :
  Start Scenario.cluster (mkFlags "p1" "alice" "secret" "") Scenario.noFlags
  = triggerMethod Scenario.cluster Scenario.p1
      (after (mkFlow (mkFlags "p1" "alice" "secret" "") false [EvProviders])
         [EvLogInfo "Using login provider 'Credential provider'."])
  /\ exists evs rest,
       trace (mkFlow (mkFlags "p1" "alice" "secret" "") false [EvProviders])
       = trace Scenario.noFlags ++ EvProviders :: evs
       /\ logins evs = [] /\ prompted evs = []
       /\ trace (snd (Start Scenario.cluster (mkFlags "p1" "alice" "secret" "")
                        Scenario.noFlags))
          = trace (mkFlow (mkFlags "p1" "alice" "secret" "") false [EvProviders])
            ++ EvLogInfo "Using login provider 'Credential provider'." :: rest.
Proof.
  assert (Hres : flags_Resolve Scenario.cluster (mkFlags "p1" "alice" "secret" "")
                 = Success (mkFlags "p1" "alice" "secret" "")) by reflexivity.
  assert (Hcat : client_Providers Scenario.cluster (trace Scenario.noFlags)
                 = Success Scenario.catalog) by reflexivity.
  assert (Hsel : selectProvider Scenario.cluster Scenario.catalog
                   (mkFlow (mkFlags "p1" "alice" "secret" "")
                      (interactive Scenario.noFlags)
                      (trace Scenario.noFlags ++ [EvProviders]))
                 = (Ok Scenario.p1,
                    mkFlow (mkFlags "p1" "alice" "secret" "") false [EvProviders]))
    by (vm_compute; reflexivity).
  exact (start_announces_provider Scenario.cluster _ _ Scenario.catalog
           Scenario.p1 Scenario.noFlags _ Hres Hcat Hsel).
Defined.


(** * The collaborators of a new flow *)

(** X20. [NewFlow] keeps every option that is given.  When no logger
    is given, the logger of the flow is the literal whose output is the
    error stream of the flow (the given one when there is one, the
    standard error stream otherwise), whose level is info and whose
    formatter is left nil.  When no opener is given, the opener of the
    flow is the opener of the operating system made for the logger of
    the flow, which is the given logger when there is one. *)
Theorem NewFlow_defaults {W P F O : Type} (d : Wiring.Defaults W P F O)
    (opts : Wiring.FlowOpts W P F O) :
  let flow := Wiring.NewFlow d opts in
  (forall w, Wiring.Errout opts = Some w -> Wiring.errout flow = w)
  /\ (forall p, Wiring.Prompt opts = Some p -> Wiring.prompt flow = p)
  /\ (forall l, Wiring.Logger opts = Some l -> Wiring.logger flow = l)
  /\ (forall o, Wiring.Opener opts = Some o -> Wiring.opener flow = o)
  /\ (Wiring.Errout opts = None -> Wiring.errout flow = Wiring.os_Stderr d)
  /\ (Wiring.Prompt opts = None -> Wiring.prompt flow = Wiring.prompt_New d)
  /\ (Wiring.Logger opts = None ->
      Wiring.logger flow
      = Wiring.mkLogger (Wiring.errout flow) None Wiring.InfoLevel)
  /\ (Wiring.Opener opts = None ->
      Wiring.opener flow = Wiring.open_NewOsOpener d (Wiring.logger flow)).
Proof.
  destruct opts as [[w|] [p|] [l|] [o|]]; cbv zeta; unfold Wiring.NewFlow;
    simpl; repeat split; congruence.
Qed.

Lemma NewFlow_defaults_witness :
  Wiring.NewFlow Wiring.named (Wiring.mkFlowOpts (Some "buffer") None None None)
  = Wiring.mkCollaborators "buffer" "prompt(stdin, stdout)"
      (Wiring.mkLogger "buffer" None Wiring.InfoLevel) "os-opener(buffer)"
  /\ Wiring.opener
       (Wiring.NewFlow Wiring.named
          (Wiring.mkFlowOpts None None
             (Some (Wiring.mkLogger "file" (Some "json") Wiring.DebugLevel))
             None))
     = "os-opener(file)".
Proof.
  split; [reflexivity|].
  destruct (NewFlow_defaults Wiring.named
              (Wiring.mkFlowOpts None None
                 (Some (Wiring.mkLogger "file" (Some "json") Wiring.DebugLevel))
                 None))
    as (_ & _ & Hlogger & _ & _ & _ & _ & Hopener).
  rewrite (Hopener eq_refl), (Hlogger _ eq_refl). reflexivity.
Defined.

(** * Listing plugins *)

Lemma commandNames_acc (commands : list PluginList.Command) (acc : list string) :
  PluginList.commandNames commands acc
  = acc ++ map PluginList.command_Name commands.
Proof.
  revert acc. induction commands as [|command rest IH]; intros acc; simpl.
  - by rewrite app_nil_r.
  - by rewrite IH, <- app_assoc.
Qed.

Lemma appended_rows (plugins : list PluginList.Plugin) :
  PluginList.appended (PluginList.rows plugins) = map PluginList.row plugins
  /\ PluginList.encoded (PluginList.rows plugins) = [].
Proof.
  induction plugins as [|plugin rest [IHa IHe]]; [done|].
  change (PluginList.rows (plugin :: rest))
    with ([PluginList.OutAppend (PluginList.row plugin)] ++ PluginList.rows rest).
  unfold PluginList.appended, PluginList.encoded in *.
  by rewrite !omap_app, IHa, IHe.
Qed.

(** X21. The plugin list command writes nothing when the context has
    no cluster and returns that error.  Otherwise it writes either JSON
    or a table, never both: with the JSON flag the plugins are encoded
    once, with an indent of four spaces, and the encoder's error is
    returned; without it the table has the header NAME, COMMANDS and
    one row per plugin, in the order of the plugins, then is rendered,
    and no error is returned. *)
Theorem plugin_list_output {C : Type} (ctx : PluginList.Context C)
    (jsonOutput : bool) :
  match PluginList.ctx_Cluster ctx with
  | Failure err => PluginList.RunE ctx jsonOutput = (Some err, [])
  | Success cluster =>
      let plugins := PluginList.ctx_Plugins ctx cluster in
      let out := snd (PluginList.RunE ctx jsonOutput) in
      if jsonOutput then
        fst (PluginList.RunE ctx jsonOutput) = PluginList.ctx_Encode ctx plugins
        /\ out = [PluginList.OutJSON "    " plugins]
        /\ PluginList.appended out = []
      else
        fst (PluginList.RunE ctx jsonOutput) = None
        /\ PluginList.encoded out = []
        /\ PluginList.appended out = map PluginList.row plugins
        /\ head out = Some (PluginList.OutTable ["NAME"; "COMMANDS"])
        /\ last out = Some PluginList.OutRender
        /\ length out = length plugins + 2
  end.
Proof.
  unfold PluginList.RunE.
  destruct (PluginList.ctx_Cluster ctx) as [cluster|err]; [|done].
  cbv zeta. destruct jsonOutput; [done|]. cbn [fst snd].
  destruct (appended_rows (PluginList.ctx_Plugins ctx cluster)) as [Ha He].
  repeat split.
  - change (PluginList.encoded (?x :: ?l ++ [PluginList.OutRender]))
      with (PluginList.encoded ([x] ++ l ++ [PluginList.OutRender])).
    unfold PluginList.encoded in *. by rewrite !omap_app, He.
  - change (PluginList.appended (?x :: ?l ++ [PluginList.OutRender]))
      with (PluginList.appended ([x] ++ l ++ [PluginList.OutRender])).
    unfold PluginList.appended in *. rewrite !omap_app, Ha. simpl.
    by rewrite app_nil_r.
  - by rewrite last_cons, last_snoc.
  - simpl. rewrite length_app. simpl.
    assert (Hlen : forall l, length (PluginList.rows l) = length l)
      by (intros l; induction l; simpl; congruence).
    rewrite Hlen. lia.
Qed.

Lemma Split_cons (s : string) : exists w ws, PluginList.Split s = w :: ws.
Proof.
  destruct s as [|a rest]; simpl; [by eexists _, _|].
  destruct (Ascii.eqb a " "); [by eexists _, _|].
  destruct (PluginList.Split rest); by eexists _, _.
Qed.

Lemma Split_word (w s : string) :
  PluginList.spaceless w = true ->
  PluginList.Split (w +:+ " " +:+ s) = w :: PluginList.Split s.
Proof.
  induction w as [|a w IH]; simpl; intros Hw; [done|].
  apply andb_true_iff in Hw as [Ha Hw]. apply negb_true_iff in Ha.
  rewrite Ha. change (String.app w (String " " s)) with (w +:+ " " +:+ s).
  by rewrite (IH Hw).
Qed.

Lemma Split_spaceless (w : string) :
  PluginList.spaceless w = true -> PluginList.Split w = [w].
Proof.
  induction w as [|a w IH]; simpl; intros Hw; [done|].
  apply andb_true_iff in Hw as [Ha Hw]. apply negb_true_iff in Ha.
  by rewrite Ha, (IH Hw).
Qed.

Lemma Split_Join (names : list string) :
  names <> [] ->
  Forall (fun name => PluginList.spaceless name = true) names ->
  PluginList.Split (PluginList.Join names " ") = names.
Proof.
  induction names as [|x [|y rest] IH]; intros Hne Hall; [done| |].
  - simpl. apply Split_spaceless. by inversion Hall.
  - inversion Hall as [|? ? Hx Hrest]; subst.
    change (PluginList.Join (x :: y :: rest) " ")
      with (x +:+ " " +:+ PluginList.Join (y :: rest) " ").
    rewrite (Split_word _ _ Hx). f_equal. by apply IH.
Qed.

(** X22. The COMMANDS cell of a plugin's row determines the names of
    its commands: when the plugin has a command and no name contains a
    space, cutting the cell at the spaces gives back the names, in
    order.  The cell of a plugin without commands is empty. *)
Theorem commands_cell_round_trip (plugin : PluginList.Plugin) :
  (PluginList.Commands plugin <> [] ->
   Forall (fun command =>
             PluginList.spaceless (PluginList.command_Name command) = true)
          (PluginList.Commands plugin) ->
   exists cell,
     PluginList.row plugin = [PluginList.Name plugin; cell]
     /\ PluginList.Split cell
        = map PluginList.command_Name (PluginList.Commands plugin))
  /\ (PluginList.Commands plugin = [] ->
      PluginList.row plugin = [PluginList.Name plugin; ""]).
Proof.
  split.
  - intros Hne Hall. eexists. split; [reflexivity|].
    rewrite commandNames_acc. simpl app. apply Split_Join.
    + by destruct (PluginList.Commands plugin).
    + by apply Forall_fmap.
  - intros Hnone. unfold PluginList.row. by rewrite Hnone.
Qed.

Lemma commands_cell_round_trip_witness :
  PluginList.row PluginList.core = ["dcos-core-cli"; "job marathon node"]
  /\ PluginList.Split "job marathon node" = ["job"; "marathon"; "node"]
  /\ PluginList.row PluginList.bare = ["empty"; ""].
Proof.
  destruct (commands_cell_round_trip PluginList.core) as [Hsome _].
  destruct (commands_cell_round_trip PluginList.bare) as [_ Hnone].
  destruct Hsome as (cell & Hrow & Hsplit).
  - discriminate.
  - repeat constructor.
  - split; [reflexivity|]. split; [reflexivity|]. exact (Hnone eq_refl).
Defined.
